(** * python-manin-runner: the job executor, its log classifier, the
      subscriber registry and the SSE streaming endpoint

    Shallow embedding of [src/runner.py] and [src/app.py].

    Conventions of the embedding.
    - A Python [str] is a [string]; every [ascii] stands for one character
      whose code point is below 256.  On that range [\d] is [0-9],
      [str.isspace] holds of 9-13, 28-32, 133 and 160, and [.] of a regular
      expression is every character but the line feed.
    - An [asyncio.Queue] is an object: the store maps its identity to the
      FIFO list of the messages it holds, and the dict [subscribers] maps
      a conversation id to a queue identity, so that two handles on one
      queue alias.
    - Code that can raise returns a [result]; only instances of
      [Exception] are modelled, since these are what the [except
      Exception] handlers of the source see.
    - What the operating system, the network and the subprocess answer is
      read from a [world] record.
    - A job runs as one step of the store: while it runs, the registry
      changes through the puts of the job only. *)

From Stdlib Require Import ZArith NArith Ascii String List Bool Lia.
From stdpp Require Import gmap strings list fin_maps.

(** ** Exceptions and results *)

Inductive exn : Type :=
| HTTPException (status_code : Z) (detail : string)
| CalledProcessError (returncode : Z) (cmd : list string)
| FileNotFoundError (msg : string)
| OtherException (text : string).

Inductive result (A : Type) : Type :=
| Return (a : A)
| Raise (e : exn).
Arguments Return {A} a.
Arguments Raise {A} e.

(** [try: body / except Exception as e: handler e] *)
Definition try_except {A : Type} (body : result A) (handler : exn -> result A)
  : result A :=
  match body with
  | Return a => Return a
  | Raise e => handler e
  end.

(** ** Python string primitives *)

Module PyStr.

(** [ord(c)] *)
Definition ord (c : ascii) : N := N_of_ascii c.

Definition isdigit (c : ascii) : bool :=
  ((48 <=? ord c) && (ord c <=? 57))%N.

Definition isspace (c : ascii) : bool :=
  (((9 <=? ord c) && (ord c <=? 13))
   || ((28 <=? ord c) && (ord c <=? 32))
   || (ord c =? 133) || (ord c =? 160))%N.

Definition is_newline (c : ascii) : bool := (ord c =? 10)%N.

Definition lower_char (c : ascii) : ascii :=
  if (((65 <=? ord c) && (ord c <=? 90))
      || ((192 <=? ord c) && (ord c <=? 222) && negb (ord c =? 215)))%N
  then ascii_of_N (ord c + 32) else c.

(** [s.lower()] *)
Fixpoint lower (s : string) : string :=
  match s with
  | EmptyString => EmptyString
  | String c s' => String (lower_char c) (lower s')
  end.

(** [not s]: the empty string is the only falsy one *)
Definition is_empty (s : string) : bool :=
  match s with EmptyString => true | String _ _ => false end.

(** [s.startswith(p)] *)
Fixpoint startswith (p s : string) : bool :=
  match p, s with
  | EmptyString, _ => true
  | String a p', String b s' => Ascii.eqb a b && startswith p' s'
  | String _ _, EmptyString => false
  end.

(** [s.endswith(p)] *)
Definition endswith (p s : string) : bool :=
  startswith (String.rev p) (String.rev s).

(** [sub in s] *)
Fixpoint contains (sub s : string) : bool :=
  startswith sub s
  || match s with
     | EmptyString => false
     | String _ s' => contains sub s'
     end.

Fixpoint lstrip (s : string) : string :=
  match s with
  | EmptyString => EmptyString
  | String c s' => if isspace c then lstrip s' else s
  end.

Fixpoint rstrip (s : string) : string :=
  match s with
  | EmptyString => EmptyString
  | String c s' =>
      let r := rstrip s' in
      if isspace c && is_empty r then EmptyString else String c r
  end.

(** [s.strip()] *)
Definition strip (s : string) : string := rstrip (lstrip s).

(** [s] without its first [n] characters *)
Fixpoint skip (n : nat) (s : string) : string :=
  match n, s with
  | O, _ => s
  | S n', String _ s' => skip n' s'
  | S _, EmptyString => EmptyString
  end.

(** the longest run of digits at the head of [s], and what follows it *)
Fixpoint span_digits (s : string) : string * string :=
  match s with
  | String c s' =>
      if isdigit c
      then let '(d, r) := span_digits s' in (String c d, r)
      else (EmptyString, s)
  | EmptyString => (EmptyString, EmptyString)
  end.

(** whether no character of [s] is white space *)
Fixpoint no_space (s : string) : bool :=
  match s with
  | EmptyString => true
  | String c s' => negb (isspace c) && no_space s'
  end.

(** whether [s] begins with a digit *)
Definition starts_with_digit (s : string) : bool :=
  match s with
  | String c _ => isdigit c
  | EmptyString => false
  end.

End PyStr.
Import PyStr.

(** ** The log classifier ([runner.py], [extract_log]) *)

Module Classifier.

(** [Animation (\d+)] anchored at the head of [s]: the greedy group takes
    the whole run of digits *)
Definition animation_at (s : string) : option string :=
  if startswith "Animation " s then
    let '(n, _) := span_digits (skip 10 s) in
    if is_empty n then None else Some n
  else None.

(** [re.search(r"Animation (\d+)", line)]: group 1 of the leftmost match *)
Fixpoint re_search_animation (s : string) : option string :=
  match animation_at s with
  | Some n => Some n
  | None =>
      match s with
      | EmptyString => None
      | String _ s' => re_search_animation s'
      end
  end.

(** [(\d+)%\|] anchored at the head of [s]: a shorter run of digits is
    followed by a digit, never by the percent sign *)
Definition percent_at (s : string) : option string :=
  let '(p, r) := span_digits s in
  if negb (is_empty p) && startswith "%|" r then Some p else None.

(** [.*?(\d+)%\|] anchored at the head of [s]: the lazy star skips as few
    characters as it can, none of them a line feed *)
Fixpoint lazy_percent (s : string) : option string :=
  match percent_at s with
  | Some p => Some p
  | None =>
      match s with
      | EmptyString => None
      | String c s' => if is_newline c then None else lazy_percent s'
      end
  end.

(** [Animation (\d+):.*?(\d+)%\|] anchored at the head of [s] *)
Definition progress_at (s : string) : option (string * string) :=
  if startswith "Animation " s then
    let '(n, r) := span_digits (skip 10 s) in
    if is_empty n then None
    else
      match r with
      | String ":" r' =>
          match lazy_percent r' with
          | Some p => Some (n, p)
          | None => None
          end
      | _ => None
      end
  else None.

(** [re.match(r".*Animation (\d+):.*?(\d+)%\|.*", line)] as a truth value:
    the leading [.*] reaches every position not preceded by a line feed *)
Fixpoint re_match_progress (s : string) : bool :=
  match progress_at s with
  | Some _ => true
  | None =>
      match s with
      | EmptyString => false
      | String c s' => if is_newline c then false else re_match_progress s'
      end
  end.

(** [re.search(r"Animation (\d+):.*?(\d+)%\|", line)]: groups 1 and 2 of
    the leftmost match *)
Fixpoint re_search_progress (s : string) : option (string * string) :=
  match progress_at s with
  | Some g => Some g
  | None =>
      match s with
      | EmptyString => None
      | String _ s' => re_search_progress s'
      end
  end.

(** The conditions of the [if]/[elif] chain, in the order of the source. *)
Definition cond_partial (line : string) : bool :=
  contains "Animation" line && contains "Partial" line.
Definition cond_progress (line : string) : bool := re_match_progress line.
Definition cond_file_ready (line : string) : bool :=
  contains "File ready at" line.
Definition cond_rendered (line : string) : bool :=
  contains "Rendered ArchitectureDiagram" line.
Definition cond_played (line : string) : bool := contains "Played" line.
Definition cond_error (line : string) : bool :=
  contains "ERROR" line || contains "Exception" line.

(** The body of the [try] block.  A branch whose inner [if m:] fails falls
    out of the chain onto the final [return None]. *)
Definition extract_log_body (line : string) : result (option string) :=
  if cond_partial line then
    match re_search_animation line with
    | Some n => Return (Some ("Animation " +:+ n +:+ " loaded"))
    | None => Return None
    end
  else if cond_progress line then
    match re_search_progress line with
    | Some (n, p) => Return (Some ("Animation " +:+ n +:+ " progress: " +:+ p +:+ "%"))
    | None => Return None
    end
  else if cond_file_ready line then Return (Some "Final video ready!")
  else if cond_rendered line then Return (Some "Rendering complete!")
  else if cond_played line then Return (Some (strip line))
  else if cond_error line then Return (Some "Error occurred")
  else Return None.

Definition extract_log (line : string) : result (option string) :=
  try_except (extract_log_body line) (fun _ => Return None).

End Classifier.
Import Classifier.

(** ** The store: queue objects, the dict [subscribers], the processes
       started *)

Record state : Type := State {
  queues : gmap nat (list string);
  subscribers : gmap string nat;
  spawned : list (list string);
}.

Module Registry.

(** [asyncio.Queue()]: a new object, empty, distinct from every queue
    that exists *)
Definition new_queue (s : state) : nat * state :=
  let q := fresh (dom (queues s)) in
  (q, State (<[q := []]> (queues s)) (subscribers s) (spawned s)).

(** [app.py] lines 25-26: [q = asyncio.Queue(); subscribers[conversationId] = q] *)
Definition register (conversationId : string) (s : state) : nat * state :=
  let '(q, s1) := new_queue s in
  (q, State (queues s1) (<[conversationId := q]> (subscribers s1)) (spawned s1)).

(** [subscribers.get(conversationId)] *)
Definition get (conversationId : string) (s : state) : option nat :=
  subscribers s !! conversationId.

(** [app.py] line 51: [subscribers.pop(conversationId, None)] *)
Definition unregister (conversationId : string) (s : state) : state :=
  State (queues s) (delete conversationId (subscribers s)) (spawned s).

(** [await q.put(msg)] on an unbounded queue: the message joins the tail *)
Definition put (q : nat) (msg : string) (s : state) : state :=
  State (alter (fun l => l ++ [msg]) q (queues s)) (subscribers s) (spawned s).

(** [runner.py] lines 109-110, 179-180, 186-187, 213-217:
    [if conversation_id in subscribers: await subscribers[conversation_id].put(msg)] *)
Definition publish (conversation_id msg : string) (s : state) : state :=
  match subscribers s !! conversation_id with
  | Some q => put q msg s
  | None => s
  end.

(** a run of [publish] calls for one id, in order *)
Definition publish_all (id : string) (msgs : list string) (s : state) : state :=
  fold_left (fun s' m => publish id m s') msgs s.

(** [app.py] line 94: [len(subscribers)] *)
Definition count (s : state) : nat := size (subscribers s).

(** [app.py] line 104: [subscribers.clear()] *)
Definition clear (s : state) : state := State (queues s) ∅ (spawned s).

(** the messages waiting in the queue registered for an id, if any *)
Definition channel (conversation_id : string) (s : state) : option (list string) :=
  q ← subscribers s !! conversation_id; queues s !! q.

End Registry.
Import Registry.

(** ** The streaming endpoint ([app.py], [sse] and its generator [event_gen]) *)

Module Stream.

Definition lf : string := String (ascii_of_N 10) EmptyString.
Definition dquote : string := String (ascii_of_N 34) EmptyString.

(** line 35: the f-string [data: {msg} \n\n] *)
Definition message_frame (msg : string) : string :=
  "data: " +:+ msg +:+ " " +:+ lf +:+ lf.

(** line 45: [data: {"data": "keepalive"}\n\n] *)
Definition keepalive_frame : string :=
  "data: {" +:+ dquote +:+ "data" +:+ dquote +:+ ": " +:+ dquote +:+ "keepalive"
  +:+ dquote +:+ "}" +:+ lf +:+ lf.

(** line 38 *)
Definition is_completion (msg : string) : bool :=
  String.eqb (lower (strip msg)) "video generation completed!".

(** line 41 *)
Definition is_error (msg : string) : bool := startswith "error:" (lower msg).

(** a message after which the generator leaves its loop *)
Definition is_terminal (msg : string) : bool := is_completion msg || is_error msg.

(** [await asyncio.wait_for(q.get(), timeout=30.0)], seen at the instant
    it resolves: the head of the queue when a message is there, and
    [None], for [asyncio.TimeoutError], when thirty seconds went by
    with the queue still empty *)
Definition wait_for_get (q : nat) (s : state) : option (string * state) :=
  match queues s !! q with
  | Some (msg :: rest) =>
      Some (msg, State (<[q := rest]> (queues s)) (subscribers s) (spawned s))
  | _ => None
  end.

Inductive stream_state : Type := Open | Closed.

(** One turn of the [while True] loop of [event_gen], lines 29-45, with the
    [finally] clause of line 51 run when the loop is left: the frames
    yielded, whether the stream stays open, and the store. *)
Definition event_gen_turn (conversationId : string) (q : nat) (s : state)
    : list string * stream_state * state :=
  match wait_for_get q s with
  | Some (msg, s1) =>
      if is_completion msg then
        ([message_frame msg], Closed, unregister conversationId s1)
      else if is_error msg then
        ([message_frame msg], Closed, unregister conversationId s1)
      else ([message_frame msg], Open, s1)
  | None => ([keepalive_frame], Open, s)
  end.

(** at most [n] turns of the loop, stopping when the stream closes *)
Fixpoint event_gen_loop (n : nat) (conversationId : string) (q : nat) (s : state)
    : list string * stream_state * state :=
  match n with
  | O => ([], Open, s)
  | S n' =>
      match event_gen_turn conversationId q s with
      | (fr, Closed, s1) => (fr, Closed, s1)
      | (fr, Open, s1) =>
          let '(fr', st, s2) := event_gen_loop n' conversationId q s1 in
          (fr ++ fr', st, s2)
      end
  end.

(** the generator from its start: lines 25-26, then [n] turns *)
Definition event_gen (n : nat) (conversationId : string) (s : state)
    : list string * stream_state * state :=
  let '(q, s1) := register conversationId s in
  event_gen_loop n conversationId q s1.

End Stream.
Import Stream.

(** ** Stateful, fallible computations *)

Definition M (A : Type) : Type := state -> result A * state.

Definition ret {A : Type} (a : A) : M A := fun s => (Return a, s).

Definition raise {A : Type} (e : exn) : M A := fun s => (Raise e, s).

Definition bind {A B : Type} (m : M A) (k : A -> M B) : M B :=
  fun s =>
    match m s with
    | (Return a, s1) => k a s1
    | (Raise e, s1) => (Raise e, s1)
    end.

(** a pure fallible step *)
Definition lift {A : Type} (r : result A) : M A := fun s => (r, s).

(** a step that only changes the store *)
Definition effect (f : state -> state) : M unit := fun s => (Return tt, f s).

(** [try: body / except Exception as e: handler e]; what the body did to
    the store before it raised stays done *)
Definition try_exceptM {A : Type} (body : M A) (handler : exn -> M A) : M A :=
  fun s =>
    match body s with
    | (Return a, s1) => (Return a, s1)
    | (Raise e, s1) => handler e s1
    end.

Notation "x <- m ;; k" := (bind m (fun x => k))
  (at level 100, m at next level, right associativity).
Notation "m ;;; k" := (bind m (fun _ => k))
  (at level 100, right associativity).

(** ** The environment of a job *)

Unset Elimination Schemes.
Inductive json : Type :=
| JNull
| JBool (b : bool)
| JNumber (z : Z)
| JString (s : string)
| JArray (l : list json)
| JObject (l : list (string * json)).
Set Elimination Schemes.

Record config : Type := Config {
  SUPABASE_URL : string;
  SUPABASE_API_KEY : string;
  SUPABASE_BUCKET : string;
  SPRING_CALLBACK_URL : option string;
}.

(** what a started subprocess does: the lines [readline] returns before
    end of file, each as [decode('utf-8')] yields it, and the exit code *)
Record process : Type := Process {
  stdout : list (result string);
  returncode : Z;
}.

Record world : Type := World {
  (** [tempfile.TemporaryDirectory()] *)
  mkdtemp : result string;
  (** the removal of that directory when its [with] block is left *)
  cleanup : string -> result unit;
  (** [open(path, "w").write(text)] *)
  write_text : string -> string -> result unit;
  (** [os.makedirs(path, exist_ok=True)] *)
  makedirs : string -> result unit;
  (** [asyncio.create_subprocess_exec] on the command and its [cwd] *)
  create_subprocess_exec : list string -> string -> result process;
  (** [os.walk(top)]: each directory with the files in it *)
  os_walk : string -> list (string * list string);
  (** [os.path.exists(path)] *)
  path_exists : string -> bool;
  (** [os.listdir(path)] *)
  listdir : string -> result (list string);
  (** [open(path, 'rb')] *)
  open_rb : string -> result unit;
  (** [requests.post(url, data=f, ...)] followed by [raise_for_status()] *)
  requests_post : string -> result unit;
  (** [requests.post(url, json={conversationId, videoUrl})] followed by
      [raise_for_status()] *)
  requests_post_json : string -> string -> string -> result unit;
  (** [str(e)] for the two exception classes with a [__str__] of their own *)
  str_CalledProcessError : Z -> list string -> string;
  str_HTTPException : Z -> string -> string;
}.

(** [str(e)] *)
Definition str (w : world) (e : exn) : string :=
  match e with
  | HTTPException c d => str_HTTPException w c d
  | CalledProcessError rc cmd => str_CalledProcessError w rc cmd
  | FileNotFoundError msg => msg
  | OtherException text => text
  end.

(** ** The job executor ([runner.py]) *)

Module Runner.

(** [posixpath.join] of two components *)
Definition path_join2 (a b : string) : string :=
  if startswith "/" b then b
  else if is_empty a || endswith "/" a then a +:+ b
  else a +:+ "/" +:+ b.

(** [os.path.join] of [a] and the components [ps] *)
Definition path_join (a : string) (ps : list string) : string :=
  fold_left path_join2 ps a.

(** lines 53-78 *)
Definition upload_to_supabase (cfg : config) (w : world)
    (file_path filename : string) : result string :=
  try_except
    (if negb (path_exists w file_path)
     then Raise (FileNotFoundError ("File not found: " +:+ file_path))
     else
       match open_rb w file_path with
       | Raise e => Raise e
       | Return _ =>
           let upload_url :=
             SUPABASE_URL cfg +:+ "/storage/v1/object/" +:+ SUPABASE_BUCKET cfg
             +:+ "/" +:+ filename in
           match requests_post w upload_url with
           | Raise e => Raise e
           | Return _ =>
               Return (SUPABASE_URL cfg +:+ "/storage/v1/object/public/"
                       +:+ SUPABASE_BUCKET cfg +:+ "/" +:+ filename)
           end
       end)
    (fun e => Raise e).

(** lines 126-135, for one line read: classify it and, when the message is
    truthy and a queue is registered, put it on that queue *)
Definition handle_line (conversation_id : string) (raw : string) : M unit :=
  let line := strip raw in
  log_message <- lift (extract_log line) ;;
  match log_message with
  | Some m =>
      if negb (is_empty m) then effect (publish conversation_id m) else ret tt
  | None => ret tt
  end.

(** lines 121-135: the loop over the output until end of file *)
Fixpoint read_output (conversation_id : string) (lines : list (result string))
  : M unit :=
  match lines with
  | [] => ret tt
  | l :: rest =>
      raw <- lift l ;;
      handle_line conversation_id raw ;;;
      read_output conversation_id rest
  end.

(** lines 96-104 *)
Definition manim_cmd (conversation_id py_path media_dir : string) : list string :=
  ["manim"; py_path; "ArchitectureDiagram"; "--format"; "mp4";
   "-o"; conversation_id +:+ ".mp4"; "--media_dir"; media_dir; "-v"; "INFO"].

(** lines 113-118; the command joins the list of processes started *)
Definition start_process (w : world) (cmd : list string) (cwd : string)
  : M process :=
  fun s =>
    match create_subprocess_exec w cmd cwd with
    | Return p => (Return p, State (queues s) (subscribers s) (spawned s ++ [cmd]))
    | Raise e => (Raise e, s)
    end.

(** lines 145-149 *)
Definition walk_mp4 (w : world) (media_dir : string) : list string :=
  flat_map
    (fun '(root, files) =>
       map (fun file => path_join root [file])
           (List.filter (endswith ".mp4") files))
    (os_walk w media_dir).

(** lines 153-159 *)
Definition alt_locations (tmp_dir conversation_id : string) : list string :=
  [path_join tmp_dir [conversation_id +:+ ".mp4"];
   path_join tmp_dir ["media"; "videos"; conversation_id +:+ ".mp4"];
   path_join tmp_dir ["media"; "videos"; "480p15"; conversation_id +:+ ".mp4"];
   path_join tmp_dir ["media"; "videos"; "720p30"; conversation_id +:+ ".mp4"];
   path_join tmp_dir ["media"; "videos"; "1080p60"; conversation_id +:+ ".mp4"]].

(** lines 161-164: the first location that exists, if any *)
Fixpoint first_existing (w : world) (locations : list string) : list string :=
  match locations with
  | [] => []
  | location :: rest =>
      if path_exists w location then [location] else first_existing w rest
  end.

(** lines 145-164 *)
Definition find_video_files (w : world) (tmp_dir media_dir conversation_id : string)
  : list string :=
  match walk_mp4 w media_dir with
  | [] => first_existing w (alt_locations tmp_dir conversation_id)
  | video_files => video_files
  end.

(** lines 166-172: the logging of the directory listings, then the raise *)
Definition no_video_file {A : Type} (w : world) (tmp_dir media_dir : string) : M A :=
  lift (listdir w tmp_dir) ;;;
  (if path_exists w media_dir then _ <- lift (listdir w media_dir) ;; ret tt
   else ret tt) ;;;
  raise (FileNotFoundError "No video file was generated").

(** lines 190-205: the call-back, whose failure is logged and dropped *)
Definition notify_spring (cfg : config) (w : world)
    (conversation_id video_url : string) : M unit :=
  match SPRING_CALLBACK_URL cfg with
  | Some url =>
      if negb (is_empty url)
      then lift (try_except (requests_post_json w url conversation_id video_url)
                   (fun _ => Return tt))
      else ret tt
  | None => ret tt
  end.

(** line 85: [with tempfile.TemporaryDirectory() as tmp_dir: block].  The
    directory is removed when the block is left, by a return or by an
    exception; when the removal fails, its exception is the one that
    leaves the statement. *)
Definition with_temporary_directory {A : Type} (w : world)
    (block : string -> M A) : M A :=
  tmp_dir <- lift (mkdtemp w) ;;
  fun s =>
    let '(r, s1) := block tmp_dir s in
    match cleanup w tmp_dir with
    | Return _ => (r, s1)
    | Raise e => (Raise e, s1)
    end.

(** lines 86-207: the block under the [with] *)
Definition render_and_upload (cfg : config) (w : world)
    (conversation_id code : string) (json_data : list (string * json))
    (tmp_dir : string) : M string :=
  let py_path := path_join tmp_dir [conversation_id +:+ ".py"] in
  lift (write_text w py_path code) ;;;
  let media_dir := path_join tmp_dir ["media"] in
  lift (makedirs w media_dir) ;;;
  let cmd := manim_cmd conversation_id py_path media_dir in
  effect (publish conversation_id "Starting video generation...") ;;;
  proc <- start_process w cmd tmp_dir ;;
  read_output conversation_id (stdout proc) ;;;
  if negb (returncode proc =? 0)%Z
  then raise (CalledProcessError (returncode proc) cmd)
  else
    match find_video_files w tmp_dir media_dir conversation_id with
    | [] => no_video_file w tmp_dir media_dir
    | video_path :: _ =>
        effect (publish conversation_id "Uploading video...") ;;;
        video_url <- lift (upload_to_supabase cfg w video_path
                             (conversation_id +:+ ".mp4")) ;;
        effect (publish conversation_id "Video generation completed!") ;;;
        notify_spring cfg w conversation_id video_url ;;;
        ret video_url
    end.

(** lines 83-207: the body of the outer [try] *)
Definition run_and_upload_body (cfg : config) (w : world)
    (conversation_id code : string) (json_data : list (string * json)) : M string :=
  with_temporary_directory w
    (render_and_upload cfg w conversation_id code json_data).

(** lines 80-219 *)
Definition run_and_upload (cfg : config) (w : world)
    (conversation_id code : string) (json_data : list (string * json)) : M string :=
  try_exceptM
    (run_and_upload_body cfg w conversation_id code json_data)
    (fun e =>
       effect (publish conversation_id ("Error: " +:+ str w e)) ;;;
       raise e).

End Runner.
Import Runner.

(** ** The HTTP handlers ([app.py]) *)

Module App.

Record RunRequest : Type := {
  conversation_id : string;
  code : string;
  json_data : list (string * json);
}.

Record RunResponse : Type := {
  status : string;
  url : string;
  response_conversation_id : string;
}.

(** lines 67-87 *)
Definition run (cfg : config) (w : world) (req : RunRequest) : M RunResponse :=
  try_exceptM
    (if is_empty (conversation_id req) || is_empty (code req)
     then raise (HTTPException 400 "conversation_id and code are required")
     else
       url <- run_and_upload cfg w (conversation_id req) (code req)
                (json_data req) ;;
       ret {| status := "success"; url := url;
              response_conversation_id := conversation_id req |})
    (fun e => raise (HTTPException 500 (str w e))).

(** lines 91-94: the [active_streams] entry of the answer *)
Definition health_check (s : state) : nat := count s.

End App.
Import App.

(** ** What a job publishes *)

Module Trace.

(** the messages one line of output makes the executor publish, lines
    126-135: none, or the one message of the classifier *)
Definition line_messages (raw : string) : list string :=
  match extract_log (strip raw) with
  | Return (Some m) => if is_empty m then [] else [m]
  | _ => []
  end.

(** the messages published while the output is read, up to the first line
    that cannot be decoded *)
Fixpoint output_messages (lines : list (result string)) : list string :=
  match lines with
  | [] => []
  | Return raw :: rest => line_messages raw ++ output_messages rest
  | Raise _ :: _ => []
  end.

(** how the reading of the output ends *)
Fixpoint output_result (lines : list (result string)) : result unit :=
  match lines with
  | [] => Return tt
  | Return _ :: rest => output_result rest
  | Raise e :: _ => Raise e
  end.

(** none of the messages drawn from the output of [p] begins with
    [error:], in any letter case *)
Definition no_error_progress (p : process) : bool :=
  forallb (fun m => negb (is_error m)) (output_messages (stdout p)).

(** the store after further processes were started *)
Definition with_spawned (procs : list (list string)) (s : state) : state :=
  State (queues s) (subscribers s) (spawned s ++ procs).

(** [m], from every store, yields [r], having published [msgs] for [id]
    and started [procs] *)
Definition emits {A : Type} (id : string) (m : M A) (r : result A)
    (msgs : list string) (procs : list (list string)) : Prop :=
  forall s, m s = (r, with_spawned procs (publish_all id msgs s)).

(** a message that came from the output of a process of the world *)
Definition progress_notice (w : world) (m : string) : Prop :=
  exists cmd cwd p,
    create_subprocess_exec w cmd cwd = Return p
    /\ In m (output_messages (stdout p)).

(** a message of the executor other than its last one *)
Definition notice (w : world) (m : string) : Prop :=
  m = "Starting video generation..."
  \/ m = "Uploading video..."
  \/ progress_notice w m.

(** what a job that returns has published *)
Definition completed_messages (w : world) (msgs : list string) : Prop :=
  exists cmd cwd p,
    create_subprocess_exec w cmd cwd = Return p
    /\ output_result (stdout p) = Return tt
    /\ msgs = "Starting video generation..."
              :: output_messages (stdout p)
              ++ ["Uploading video..."; "Video generation completed!"].

(** what the block under the [with] publishes: everything when it
    returns, notices only when it raises *)
Definition block_shape (w : world) (r : result string) (msgs : list string)
  : Prop :=
  match r with
  | Return _ => completed_messages w msgs
  | Raise _ => Forall (notice w) msgs
  end.

(** what the body of the outer [try] publishes: as the block, but that it
    also raises, with everything published, when the block returned and
    the removal of the directory failed *)
Definition body_shape (w : world) (r : result string) (msgs : list string)
  : Prop :=
  match r with
  | Return _ => completed_messages w msgs
  | Raise e =>
      Forall (notice w) msgs
      \/ (completed_messages w msgs /\ exists d, cleanup w d = Raise e)
  end.

(** what a job publishes: as its body, with the error message at the end
    when it raises *)
Definition run_shape (w : world) (r : result string) (msgs : list string)
  : Prop :=
  match r with
  | Return _ => completed_messages w msgs
  | Raise e =>
      exists pre,
        msgs = pre ++ ["Error: " +:+ str w e]
        /\ (Forall (notice w) pre
            \/ (completed_messages w pre /\ exists d, cleanup w d = Raise e))
  end.

(** [m] yields some result, with some messages published, that satisfy [P] *)
Definition outcome {A : Type} (id : string) (m : M A)
    (P : result A -> list string -> Prop) : Prop :=
  exists r msgs procs, emits id m r msgs procs /\ P r msgs.

End Trace.
Import Trace.

(** ** Sample environments *)

Module Sample.

Definition cfg : config :=
  Config "https://storage.example" "key" "videos" None.

(** a world in which every call succeeds, the subprocess prints [lines]
    and exits with [rc], and the video is found under the media directory *)
Definition world_of (lines : list (result string)) (rc : Z) : world :=
  World (Return "/tmp/job")
        (fun _ => Return tt)
        (fun _ _ => Return tt)
        (fun _ => Return tt)
        (fun _ _ => Return (Process lines rc))
        (fun top => [(top +:+ "/videos", ["scene.mp4"])])
        (fun _ => true)
        (fun _ => Return [])
        (fun _ => Return tt)
        (fun _ => Return tt)
        (fun _ _ _ => Return tt)
        (fun _ _ => "Command returned non-zero exit status")
        (fun c d => d).

(** the same world, but that the removal of the scratch directory fails *)
Definition with_failing_cleanup (w : world) : world :=
  World (mkdtemp w)
        (fun _ => Raise (OtherException "Directory not empty"))
        (write_text w) (makedirs w) (create_subprocess_exec w) (os_walk w)
        (path_exists w) (listdir w) (open_rb w) (requests_post w)
        (requests_post_json w) (str_CalledProcessError w) (str_HTTPException w).

(** the same world, but that no directory holds a file and no path exists *)
Definition without_video (w : world) : world :=
  World (mkdtemp w) (cleanup w) (write_text w) (makedirs w)
        (create_subprocess_exec w) (fun _ => []) (fun _ => false) (listdir w)
        (open_rb w) (requests_post w) (requests_post_json w)
        (str_CalledProcessError w) (str_HTTPException w).

(** the store once a stream was opened for [job-1] *)
Definition listening : state := snd (register "job-1" (State ∅ ∅ [])).

End Sample.

(** ** Further notions for the properties of the code *)

Module Notions.

(** whether [s] consists of digits only *)
Fixpoint all_digits (s : string) : bool :=
  match s with
  | EmptyString => true
  | String c s' => isdigit c && all_digits s'
  end.

(** The registry is well formed: a queue that is registered exists, and
    no queue is registered for two ids. *)
Definition registry_ok (s : state) : Prop :=
  (forall id q, subscribers s !! id = Some q -> is_Some (queues s !! q))
  /\ (forall id1 id2 q,
         subscribers s !! id1 = Some q -> subscribers s !! id2 = Some q ->
         id1 = id2).

(** [runner.py] line 66 *)
Definition upload_url (cfg : config) (filename : string) : string :=
  SUPABASE_URL cfg +:+ "/storage/v1/object/" +:+ SUPABASE_BUCKET cfg
  +:+ "/" +:+ filename.

(** [runner.py] line 72 *)
Definition public_url (cfg : config) (filename : string) : string :=
  SUPABASE_URL cfg +:+ "/storage/v1/object/public/" +:+ SUPABASE_BUCKET cfg
  +:+ "/" +:+ filename.

(** [runner.py] lines 87, 92 and 96-104: the script, the media directory
    and the command of a job in its scratch directory *)
Definition py_path_of (tmp_dir id : string) : string :=
  path_join tmp_dir [id +:+ ".py"].
Definition media_dir_of (tmp_dir : string) : string :=
  path_join tmp_dir ["media"].
Definition job_cmd (tmp_dir id : string) : list string :=
  manim_cmd id (py_path_of tmp_dir id) (media_dir_of tmp_dir).

(** the same configuration with another call-back address *)
Definition with_callback_url (u : option string) (cfg : config) : config :=
  Config (SUPABASE_URL cfg) (SUPABASE_API_KEY cfg) (SUPABASE_BUCKET cfg) u.

(** the same world with another answer to the call-back *)
Definition with_requests_post_json
    (f : string -> string -> string -> result unit) (w : world) : world :=
  World (mkdtemp w) (cleanup w) (write_text w) (makedirs w)
        (create_subprocess_exec w) (os_walk w) (path_exists w) (listdir w)
        (open_rb w) (requests_post w) f
        (str_CalledProcessError w) (str_HTTPException w).

(** an exception that one of the calls a job makes to its environment
    raised: the call-back is not among them *)
Definition from_environment (w : world) (e : exn) : Prop :=
  mkdtemp w = Raise e
  \/ (exists d, cleanup w d = Raise e)
  \/ (exists path text, write_text w path text = Raise e)
  \/ (exists path, makedirs w path = Raise e)
  \/ (exists cmd cwd, create_subprocess_exec w cmd cwd = Raise e)
  \/ (exists cmd cwd p,
         create_subprocess_exec w cmd cwd = Return p /\ In (Raise e) (stdout p))
  \/ (exists path, listdir w path = Raise e)
  \/ (exists path, open_rb w path = Raise e)
  \/ (exists u, requests_post w u = Raise e).

(** the exceptions [run_and_upload] raises itself, lines 142, 172 and 57 *)
Definition from_job (w : world) (id : string) (e : exn) : Prop :=
  (exists tmp_dir p,
      create_subprocess_exec w (job_cmd tmp_dir id) tmp_dir = Return p
      /\ returncode p <> 0%Z
      /\ e = CalledProcessError (returncode p) (job_cmd tmp_dir id))
  \/ (exists tmp_dir,
         find_video_files w tmp_dir (media_dir_of tmp_dir) id = []
         /\ e = FileNotFoundError "No video file was generated")
  \/ (exists path,
         path_exists w path = false
         /\ e = FileNotFoundError ("File not found: " +:+ path)).

(** What holds when the block under the [with], run in [tmp_dir], ends
    with [r] having started the processes [procs]: when it returns, it
    started the command of the job, every step before the return
    succeeded, and the result is the public address of the video; when
    it raises, it started that command or nothing, and the exception is
    one of the environment or one of its own. *)
Definition block_facts (cfg : config) (w : world) (id code tmp_dir : string)
    (r : result string) (procs : list (list string)) : Prop :=
  match r with
  | Return url =>
      procs = [job_cmd tmp_dir id]
      /\ exists p video others,
          write_text w (py_path_of tmp_dir id) code = Return tt
          /\ makedirs w (media_dir_of tmp_dir) = Return tt
          /\ create_subprocess_exec w (job_cmd tmp_dir id) tmp_dir = Return p
          /\ output_result (stdout p) = Return tt
          /\ returncode p = 0%Z
          /\ find_video_files w tmp_dir (media_dir_of tmp_dir) id
             = video :: others
          /\ path_exists w video = true
          /\ open_rb w video = Return tt
          /\ requests_post w (upload_url cfg (id +:+ ".mp4")) = Return tt
          /\ url = public_url cfg (id +:+ ".mp4")
  | Raise e =>
      (procs = [] \/ procs = [job_cmd tmp_dir id])
      /\ (from_environment w e \/ from_job w id e)
  end.

(** the same for a whole job *)
Definition job_facts (cfg : config) (w : world) (id code : string)
    (r : result string) (procs : list (list string)) : Prop :=
  match r with
  | Return url =>
      exists tmp_dir,
        mkdtemp w = Return tmp_dir
        /\ cleanup w tmp_dir = Return tt
        /\ block_facts cfg w id code tmp_dir (Return url) procs
  | Raise e =>
      (procs = []
       \/ exists tmp_dir,
            mkdtemp w = Return tmp_dir /\ procs = [job_cmd tmp_dir id])
      /\ (from_environment w e \/ from_job w id e)
  end.

(** [m] yields some result, having started some processes, that satisfy [Q] *)
Definition outcome_procs {A : Type} (id : string) (m : M A)
    (Q : result A -> list (list string) -> Prop) : Prop :=
  exists r msgs procs, emits id m r msgs procs /\ Q r procs.

End Notions.
Import Notions.

(** * Properties *)

(** ** The registry *)

Section RegistryFacts.

Implicit Types (s : state) (id msg : string) (q : nat).

Lemma publish_subscribers id msg s : subscribers (publish id msg s) = subscribers s.
Proof. unfold publish. destruct (subscribers s !! id); reflexivity. Qed.

Lemma publish_spawned id msg s : spawned (publish id msg s) = spawned s.
Proof. unfold publish. destruct (subscribers s !! id); reflexivity. Qed.

Lemma publish_all_subscribers id msgs s :
  subscribers (publish_all id msgs s) = subscribers s.
Proof.
  revert s. induction msgs as [|m msgs IH]; intros s; simpl; [reflexivity|].
  unfold publish_all in *. simpl. rewrite IH. apply publish_subscribers.
Qed.

Lemma publish_all_spawned id msgs s :
  spawned (publish_all id msgs s) = spawned s.
Proof.
  revert s. induction msgs as [|m msgs IH]; intros s; simpl; [reflexivity|].
  unfold publish_all in *. simpl. rewrite IH. apply publish_spawned.
Qed.

Lemma publish_all_app id ms1 ms2 s :
  publish_all id (ms1 ++ ms2) s = publish_all id ms2 (publish_all id ms1 s).
Proof. unfold publish_all. apply fold_left_app. Qed.

Lemma publish_unregistered id msg s :
  subscribers s !! id = None -> publish id msg s = s.
Proof. intros H. unfold publish. rewrite H. reflexivity. Qed.

Lemma publish_all_unregistered id msgs s :
  subscribers s !! id = None -> publish_all id msgs s = s.
Proof.
  intros H. induction msgs as [|m msgs IH] using rev_ind; [reflexivity|].
  rewrite publish_all_app, IH. simpl. apply publish_unregistered, H.
Qed.

Lemma publish_registered id q old msg s :
  subscribers s !! id = Some q -> queues s !! q = Some old ->
  queues (publish id msg s) = <[q := old ++ [msg]]> (queues s).
Proof.
  intros Hs Hq. unfold publish, put. rewrite Hs. simpl.
  apply map_eq. intros k. destruct (decide (q = k)) as [<-|Hne].
  - rewrite lookup_alter_eq, lookup_insert_eq, Hq. reflexivity.
  - rewrite lookup_alter_ne, lookup_insert_ne by done. reflexivity.
Qed.

Lemma publish_all_registered id q old msgs s :
  subscribers s !! id = Some q -> queues s !! q = Some old ->
  queues (publish_all id msgs s) = <[q := old ++ msgs]> (queues s).
Proof.
  intros Hs Hq. induction msgs as [|m msgs IH] using rev_ind.
  - simpl. rewrite app_nil_r. symmetry. apply insert_id, Hq.
  - rewrite publish_all_app. simpl.
    rewrite (publish_registered id q (old ++ msgs)).
    + rewrite IH, insert_insert_eq, app_assoc. reflexivity.
    + rewrite publish_all_subscribers. exact Hs.
    + rewrite IH. apply lookup_insert_eq.
Qed.

Lemma publish_all_other_queue id q q' old msgs s :
  subscribers s !! id = Some q -> queues s !! q = Some old -> q' ≠ q ->
  queues (publish_all id msgs s) !! q' = queues s !! q'.
Proof.
  intros Hs Hq Hne. rewrite (publish_all_registered id q old) by assumption.
  apply lookup_insert_ne. congruence.
Qed.

Lemma register_fst id s : fst (register id s) = fresh (dom (queues s)).
Proof. reflexivity. Qed.

Lemma register_queues id s :
  queues (snd (register id s)) = <[fresh (dom (queues s)) := []]> (queues s).
Proof. reflexivity. Qed.

Lemma register_subscribers id s :
  subscribers (snd (register id s))
  = <[id := fresh (dom (queues s))]> (subscribers s).
Proof. reflexivity. Qed.

Lemma fresh_queue_absent s : queues s !! fresh (dom (queues s)) = None.
Proof. apply not_elem_of_dom, is_fresh. Qed.

End RegistryFacts.

(** ** Theorems on the registry *)

(** C5.  Publishing to a conversation id for which no queue is registered
    returns normally and leaves the whole store as it was; this is the
    guarded [put] of the executor, run as a step of the job. *)
Theorem publish_unregistered_noop (id msg : string) (s : state) :
  subscribers s !! id = None ->
  effect (publish id msg) s = (Return tt, s).
Proof.
  intros H. unfold effect. rewrite publish_unregistered by exact H. reflexivity.
Qed.

Lemma publish_unregistered_noop_witness :
  effect (publish "job-1" "Starting video generation...") (State ∅ ∅ [])
  = (Return tt, State ∅ ∅ []).
Proof. apply (publish_unregistered_noop "job-1"). reflexivity. Defined.

(** C3, as stated, fails: a store in which a queue is registered for an id,
    and registering that id again returns another queue. *)
Lemma register_not_idempotent :
  ~ (forall (id : string) (s : state) (q : nat),
        get id s = Some q -> fst (register id s) = q).
Proof.
  intros H.
  specialize (H "job-1" (snd (register "job-1" (State ∅ ∅ []))) 0%nat).
  vm_compute in H. specialize (H eq_refl). discriminate H.
Qed.

(** C3, amended.  Registering always creates a queue: the queue returned
    did not exist before, is empty, and is the one the id is mapped to
    afterwards, whether or not a queue was registered for the id. *)
Theorem register_creates_fresh_queue (id : string) (s : state) :
  queues s !! fst (register id s) = None
  /\ queues (snd (register id s)) !! fst (register id s) = Some []
  /\ get id (snd (register id s)) = Some (fst (register id s)).
Proof.
  rewrite register_fst, register_queues. unfold get.
  rewrite register_subscribers. split; [apply fresh_queue_absent|].
  split; apply lookup_insert_eq.
Qed.

(** a queue that exists is never the one a registration returns *)
Lemma register_differs_from_existing (id : string) (s : state) (q0 : nat) :
  is_Some (queues s !! q0) -> fst (register id s) ≠ q0.
Proof.
  intros [l Hl] Heq. subst q0. pose proof (fresh_queue_absent s) as Hf.
  rewrite register_fst in Hl. congruence.
Qed.

(** a stream is opened for an id, messages [ms1] are published, a second
    stream is opened for the same id and messages [ms2] are published with
    no stream ending in between: the second queue is another object than
    the first and holds exactly [ms2], the first still holds exactly [ms1] *)
Lemma register_publish_twice (id : string) (s : state)
    (ms1 ms2 : list string) :
  let r1 := register id s in
  let sa := publish_all id ms1 (snd r1) in
  let r2 := register id sa in
  let sb := publish_all id ms2 (snd r2) in
  fst r1 ≠ fst r2
  /\ get id sb = Some (fst r2)
  /\ channel id sb = Some ms2
  /\ queues sb !! fst r2 = Some ms2
  /\ queues sb !! fst r1 = Some ms1.
Proof.
  intros r1 sa r2 sb.
  assert (Hq1 : queues sa !! fst r1 = Some ms1).
  { unfold sa. rewrite (publish_all_registered id (fst r1) []).
    - apply lookup_insert_eq.
    - unfold r1. rewrite register_subscribers. apply lookup_insert_eq.
    - unfold r1. rewrite register_queues. apply lookup_insert_eq. }
  assert (Hne : fst r1 ≠ fst r2).
  { intros Heq. symmetry in Heq. revert Heq.
    apply register_differs_from_existing. eauto. }
  assert (Hs2 : subscribers (snd r2) !! id = Some (fst r2)).
  { unfold r2. rewrite register_subscribers. apply lookup_insert_eq. }
  assert (Hq2 : queues (snd r2) !! fst r2 = Some []).
  { unfold r2. rewrite register_queues. apply lookup_insert_eq. }
  assert (Hsb : queues sb !! fst r2 = Some ms2).
  { unfold sb. rewrite (publish_all_registered id (fst r2) []) by assumption.
    apply lookup_insert_eq. }
  assert (Hget : subscribers sb !! id = Some (fst r2)).
  { unfold sb. rewrite publish_all_subscribers. exact Hs2. }
  split; [exact Hne|]. split; [exact Hget|].
  split; [unfold channel; rewrite Hget; exact Hsb|].
  split; [exact Hsb|].
  unfold sb. rewrite (publish_all_other_queue id (fst r2) (fst r1) [])
    by assumption.
  unfold r2. rewrite register_queues, lookup_insert_ne; [exact Hq1|].
  intros Heq. apply Hne. symmetry. exact Heq.
Qed.

(** a publish changes no queue but the one registered for its id *)
Lemma publish_other_queue (id msg : string) (s : state) (q : nat) :
  get id s <> Some q -> queues (publish id msg s) !! q = queues s !! q.
Proof.
  unfold get, publish, put. intros Hne.
  destruct (subscribers s !! id) as [q'|]; [|reflexivity].
  cbn [queues]. apply lookup_alter_ne. congruence.
Qed.

(** C4, as stated, fails.  A first stream is opened for [job-1] (queue 0)
    and the job publishes [Error: boom]; before the first stream has read
    it, a second stream is opened for the same id (queue 1).  The first
    stream then takes its turn: it sends the message, ends, and its
    clean-up removes the registration of the id, which is the second
    stream's.  The message [late], published after the second
    registration, is enqueued on no queue: the store is unchanged and the
    second queue stays empty. *)
Lemma message_after_second_registration_dropped :
  let s1 := snd (register "job-1" (State ∅ ∅ [])) in
  let r2 := register "job-1" (publish "job-1" "Error: boom" s1) in
  let turn := event_gen_turn "job-1" 0 (snd r2) in
  let s3 := snd turn in
  fst r2 = 1%nat
  /\ get "job-1" (snd r2) = Some 1%nat
  /\ fst turn = ([message_frame "Error: boom"], Closed)
  /\ get "job-1" s3 = None
  /\ publish "job-1" "late" s3 = s3
  /\ queues (publish "job-1" "late" s3) !! 1%nat = Some [].
Proof. vm_compute. repeat split; reflexivity. Qed.

(** C4, amended.  The registry maps an id to at most one queue.  Opening a
    second stream for an id replaces the mapping with a fresh queue: the
    second queue is another object than the first, it is empty, the id is
    mapped to it, and the first, orphaned, keeps the messages [ms1] it
    held.  In every later store in which that second registration still
    stands, the messages published for the id are appended, in order, to
    the second queue, the registration stands afterwards and no other
    queue changes.  And in any store, a publish leaves every queue that is
    not the one registered for its id as it was.  Nothing is said of the
    messages published once the registration is gone. *)
Theorem second_stream_takes_over (id : string) (s : state)
    (ms1 : list string) :
  let r1 := register id s in
  let sa := publish_all id ms1 (snd r1) in
  let r2 := register id sa in
  (forall s' q q', get id s' = Some q -> get id s' = Some q' -> q = q')
  /\ (fst r1 <> fst r2
      /\ get id (snd r2) = Some (fst r2)
      /\ queues (snd r2) !! fst r2 = Some []
      /\ queues (snd r2) !! fst r1 = Some ms1)
  /\ (forall s3 l ms2,
        get id s3 = Some (fst r2) ->
        queues s3 !! fst r2 = Some l ->
        get id (publish_all id ms2 s3) = Some (fst r2)
        /\ queues (publish_all id ms2 s3) !! fst r2 = Some (l ++ ms2)
        /\ forall q, q <> fst r2 ->
             queues (publish_all id ms2 s3) !! q = queues s3 !! q)
  /\ (forall s3 q msg,
        get id s3 <> Some q ->
        queues (publish id msg s3) !! q = queues s3 !! q).
Proof.
  intros r1 sa r2.
  destruct (register_publish_twice id s ms1 []) as (Hne & Hget & _ & Hq2 & Hq1).
  cbn [publish_all fold_left] in Hget, Hq2, Hq1.
  split; [intros s' q q' H1 H2; congruence|].
  split; [repeat split; assumption|].
  split; [|intros s3 q msg; apply publish_other_queue].
  intros s3 l ms2 Hs3 Hl. unfold get in *. split; [|split].
  - rewrite publish_all_subscribers. exact Hs3.
  - rewrite (publish_all_registered id (fst r2) l) by assumption.
    apply lookup_insert_eq.
  - intros q Hq. apply (publish_all_other_queue id (fst r2) q l); assumption.
Qed.

Lemma second_stream_takes_over_witness :
  let s2 := snd (register "job-1"
                   (publish_all "job-1" ["a"]
                      (snd (register "job-1" (State ∅ ∅ []))))) in
  queues (publish_all "job-1" ["b"; "c"] s2) !! 1%nat = Some ["b"; "c"]
  /\ queues (publish_all "job-1" ["b"; "c"] s2) !! 0%nat = Some ["a"].
Proof.
  intros s2.
  destruct (second_stream_takes_over "job-1" (State ∅ ∅ []) ["a"])
    as (_ & _ & Hlater & _).
  destruct (Hlater s2 [] ["b"; "c"]) as (_ & Hq & Hother);
    [reflexivity|reflexivity|].
  split; [exact Hq|].
  rewrite (Hother 0%nat); [reflexivity|discriminate].
Defined.

(** ** The classifier *)

Section ClassifierFacts.

Implicit Types (s pre post line sub : string) (c : ascii).

Lemma startswith_append_l sub s x :
  startswith sub s = true -> startswith sub (s +:+ x) = true.
Proof.
  revert s. induction sub as [|a sub IH]; intros [|b s] H; simpl in *;
    try reflexivity; try discriminate.
  apply andb_true_iff in H as [Hab Hs]. rewrite Hab. simpl. apply IH, Hs.
Qed.

Lemma contains_cons sub c s :
  contains sub (String c s) = startswith sub (String c s) || contains sub s.
Proof. destruct sub; reflexivity. Qed.

Lemma contains_append_r sub pre s :
  contains sub s = true -> contains sub (pre +:+ s) = true.
Proof.
  intros H. induction pre as [|c pre IH]; [exact H|].
  change (String c pre +:+ s) with (String c (pre +:+ s)).
  rewrite contains_cons, IH. apply orb_true_r.
Qed.

Lemma re_search_animation_cons c s :
  re_search_animation (String c s)
  = match animation_at (String c s) with
    | Some n => Some n
    | None => re_search_animation s
    end.
Proof. reflexivity. Qed.

Lemma span_digits_no_digit s :
  starts_with_digit s = false -> span_digits s = (EmptyString, s).
Proof. destruct s as [|c s]; simpl; [reflexivity|]. intros ->. reflexivity. Qed.

Lemma append_cons c s x : String c s +:+ x = String c (s +:+ x).
Proof. reflexivity. Qed.

Lemma append_nil x : EmptyString +:+ x = x.
Proof. reflexivity. Qed.

Ltac split_eqb :=
  rewrite ?append_cons, ?append_nil;
  repeat (cbn [startswith skip andb];
          match goal with
          | |- context [Ascii.eqb ?a ?b] =>
              destruct (Ascii.eqb_spec a b); [try discriminate; subst|]
          end);
  cbn [startswith skip andb]; try reflexivity.

Lemma animation_at_crossing s post :
  s <> EmptyString ->
  animation_at s = None ->
  animation_at (s +:+ "Animation 7" +:+ post) = None.
Proof.
  intros Hne H. unfold animation_at in *.
  destruct s as [|c1 [|c2 [|c3 [|c4 [|c5 [|c6 [|c7 [|c8 [|c9 [|c10 s]]]]]]]]]];
    [congruence| clear H; split_eqb ..|].
  revert H. split_eqb; intros H.
  destruct s as [|c11 s].
  - reflexivity.
  - rewrite append_cons. cbn [span_digits] in *.
    destruct (isdigit c11); [|reflexivity].
    destruct (span_digits s) as [d r]. destruct (span_digits (s +:+ _)).
    simpl in *. discriminate.
Qed.
Lemma re_search_animation_seven pre post :
  re_search_animation pre = None ->
  starts_with_digit post = false ->
  re_search_animation (pre +:+ "Animation 7" +:+ post) = Some "7".
Proof.
  intros Hpre Hpost. induction pre as [|c pre IH].
  - rewrite append_nil, !append_cons.
    unfold re_search_animation, animation_at. cbn [startswith skip].
    cbn [span_digits]. rewrite span_digits_no_digit by exact Hpost.
    reflexivity.
  - rewrite re_search_animation_cons in Hpre.
    destruct (animation_at (String c pre)) eqn:Hat; [discriminate|].
    rewrite append_cons, re_search_animation_cons, <- append_cons.
    rewrite animation_at_crossing by (congruence || exact Hat).
    apply IH, Hpre.
Qed.

End ClassifierFacts.

(** C7, as stated, fails: a line that contains both [Animation 7] and
    [Partial] and is mapped to another message. *)
Lemma animation_7_partial_counterexample :
  ~ (forall line : string,
        contains "Animation 7" line = true ->
        contains "Partial" line = true ->
        extract_log line = Return (Some "Animation 7 loaded")).
Proof.
  intros H. specialize (H "Animation 71 Partial" eq_refl eq_refl).
  vm_compute in H. discriminate H.
Qed.

(** C7, amended.  The classifier maps the line
    [Animation 3: rendering 42%|something] to [Animation 3 progress: 42%];
    and it maps to [Animation 7 loaded] every line that contains [Partial]
    and in which [Animation 7] is the leftmost place where [Animation ] is
    followed by a digit, the [7] not being followed by another digit. *)
Theorem classifier_examples (pre post : string) :
  re_search_animation pre = None ->
  starts_with_digit post = false ->
  contains "Partial" (pre +:+ "Animation 7" +:+ post) = true ->
  extract_log "Animation 3: rendering 42%|something"
  = Return (Some "Animation 3 progress: 42%")
  /\ extract_log (pre +:+ "Animation 7" +:+ post)
     = Return (Some "Animation 7 loaded").
Proof.
  intros Hpre Hpost Hpartial. split; [reflexivity|].
  unfold extract_log, extract_log_body, cond_partial.
  rewrite Hpartial, contains_append_r by reflexivity. simpl andb. cbv iota.
  rewrite re_search_animation_seven by assumption. reflexivity.
Qed.

Lemma classifier_examples_witness :
  extract_log "Animation 3: rendering 42%|something"
  = Return (Some "Animation 3 progress: 42%")
  /\ extract_log ("... " +:+ "Animation 7" +:+ " Partial ...")
     = Return (Some "Animation 7 loaded").
Proof. apply (classifier_examples "... " " Partial ..."); reflexivity. Defined.

(** C8.  [extract_log] is a function of the line alone; on every line it
    returns, never raises; and on a line that meets none of the conditions
    of rules 1 to 6 it returns no message. *)
Theorem extract_log_total_and_silent (line : string) :
  (exists r : option string, extract_log line = Return r)
  /\ (cond_partial line = false ->
      cond_progress line = false ->
      cond_file_ready line = false ->
      cond_rendered line = false ->
      cond_played line = false ->
      cond_error line = false ->
      extract_log line = Return None).
Proof.
  split.
  - unfold extract_log, try_except.
    destruct (extract_log_body line) as [r|e]; eauto.
  - intros H1 H2 H3 H4 H5 H6. unfold extract_log, extract_log_body.
    rewrite H1, H2, H3, H4, H5, H6. reflexivity.
Qed.

Lemma extract_log_total_and_silent_witness :
  extract_log "INFO Writing to media/videos" = Return None.
Proof.
  apply (extract_log_total_and_silent "INFO Writing to media/videos");
    reflexivity.
Defined.

(** ** The streaming endpoint *)

Section StreamFacts.

Implicit Types (s : state) (id msg : string) (q : nat).

Lemma append_inj_l (a x y : string) : a +:+ x = a +:+ y -> x = y.
Proof.
  induction a as [|c a IH]; intros H; [exact H|].
  rewrite !append_cons in H. injection H as H. apply IH, H.
Qed.


(** the frame of a message is never [data: <message>\n\n] *)
Lemma message_frame_not_plain msg :
  message_frame msg <> "data: " +:+ msg +:+ lf +:+ lf.
Proof.
  unfold message_frame. intros H.
  apply append_inj_l, append_inj_l in H. discriminate H.
Qed.

(** an idle turn: nothing queued when the wait ends *)
Lemma idle_turn_sends_keepalive id q s :
  queues s !! q = Some [] ->
  event_gen_turn id q s = ([keepalive_frame], Open, s).
Proof. intros H. unfold event_gen_turn, wait_for_get. rewrite H. reflexivity. Qed.

Lemma keepalive_frame_shape :
  keepalive_frame
  = "data: " +:+ ("{" +:+ dquote +:+ "data" +:+ dquote +:+ ": " +:+ dquote
                  +:+ "keepalive" +:+ dquote +:+ "}") +:+ lf +:+ lf.
Proof. reflexivity. Qed.

(** a turn that finds a message forwards its frame, and closes the stream
    exactly when the message is terminal *)
Lemma turn_forwards_head id q s msg rest :
  queues s !! q = Some (msg :: rest) ->
  event_gen_turn id q s
  = let s1 := State (<[q := rest]> (queues s)) (subscribers s) (spawned s) in
    if is_terminal msg
    then ([message_frame msg], Closed, unregister id s1)
    else ([message_frame msg], Open, s1).
Proof.
  intros H. unfold event_gen_turn, wait_for_get, is_terminal. rewrite H.
  destruct (is_completion msg); [reflexivity|].
  destruct (is_error msg); reflexivity.
Qed.

(** A stream whose queue holds non-terminal messages and then a terminal
    one forwards them all, in order, closes with the frame of the terminal
    one, and unregisters its id. *)
Lemma event_gen_loop_drains id q pre t :
  Forall (fun m => is_terminal m = false) pre ->
  is_terminal t = true ->
  forall n s,
    queues s !! q = Some (pre ++ [t]) ->
    length pre < n ->
    event_gen_loop n id q s
    = (map message_frame (pre ++ [t]), Closed,
       unregister id (State (<[q := []]> (queues s)) (subscribers s) (spawned s))).
Proof.
  intros Hpre Ht. induction Hpre as [|m pre Hm _ IH]; intros n s Hq Hn.
  - destruct n as [|n]; [lia|]. cbn [event_gen_loop].
    rewrite (turn_forwards_head id q s t [] Hq). cbv zeta. rewrite Ht.
    reflexivity.
  - destruct n as [|n]; [simpl in Hn; lia|]. cbn [event_gen_loop].
    rewrite (turn_forwards_head id q s m (pre ++ [t]) Hq). cbv zeta.
    rewrite Hm. rewrite IH.
    + simpl. rewrite insert_insert_eq. reflexivity.
    + simpl. apply lookup_insert_eq.
    + simpl in Hn. lia.
Qed.

End StreamFacts.

(** C9, evaluated on the code.  With [hello] at the head of its queue, the
    endpoint yields the frame [data: hello \n\n], a space standing between
    the message and the line feeds; no message is ever framed as
    [data: <message>\n\n].  The keep-alive, [idle_turn_sends_keepalive],
    holds. *)
Theorem message_frame_has_trailing_space :
  event_gen_turn "job-1" 0 (State {[0%nat := ["hello"]]} {["job-1" := 0%nat]} [])
  = (["data: hello " +:+ lf +:+ lf], Open,
     State {[0%nat := []]} {["job-1" := 0%nat]} [])
  /\ forall msg : string, message_frame msg <> "data: " +:+ msg +:+ lf +:+ lf.
Proof. split; [reflexivity|]. exact message_frame_not_plain. Qed.

(** ** The job executor *)

Section RunnerFacts.

Implicit Types (s : state) (id msg : string) (q : nat) (w : world).

Lemma with_spawned_nil s : with_spawned [] s = s.
Proof. destruct s. unfold with_spawned. simpl. rewrite app_nil_r. reflexivity. Qed.

Lemma with_spawned_app p1 p2 s :
  with_spawned p2 (with_spawned p1 s) = with_spawned (p1 ++ p2) s.
Proof. unfold with_spawned. simpl. rewrite app_assoc. reflexivity. Qed.

Lemma publish_with_spawned id msg p s :
  publish id msg (with_spawned p s) = with_spawned p (publish id msg s).
Proof.
  unfold publish, with_spawned. simpl.
  destruct (subscribers s !! id); reflexivity.
Qed.

Lemma publish_all_with_spawned id msgs p s :
  publish_all id msgs (with_spawned p s) = with_spawned p (publish_all id msgs s).
Proof.
  revert s. induction msgs as [|m msgs IH]; intros s; [reflexivity|].
  unfold publish_all in *. simpl. rewrite publish_with_spawned. apply IH.
Qed.

Lemma emits_ret {A} id (a : A) : emits id (ret a) (Return a) [] [].
Proof. intros s. unfold ret. simpl. rewrite with_spawned_nil. reflexivity. Qed.

Lemma emits_raise {A} id e : emits id (@raise A e) (Raise e) [] [].
Proof. intros s. unfold raise. simpl. rewrite with_spawned_nil. reflexivity. Qed.

Lemma emits_lift {A} id (r : result A) : emits id (lift r) r [] [].
Proof. intros s. unfold lift. simpl. rewrite with_spawned_nil. reflexivity. Qed.

Lemma emits_publish id msg : emits id (effect (publish id msg)) (Return tt) [msg] [].
Proof. intros s. unfold effect. simpl. rewrite with_spawned_nil. reflexivity. Qed.

Lemma emits_bind_return {A B} id (m : M A) (k : A -> M B) a r ms1 ms2 p1 p2 :
  emits id m (Return a) ms1 p1 ->
  emits id (k a) r ms2 p2 ->
  emits id (bind m k) r (ms1 ++ ms2) (p1 ++ p2).
Proof.
  intros Hm Hk s. unfold bind. rewrite Hm, Hk.
  rewrite publish_all_with_spawned, with_spawned_app, publish_all_app.
  reflexivity.
Qed.

Lemma emits_bind_raise {A B} id (m : M A) (k : A -> M B) e ms p :
  emits id m (Raise e) ms p -> emits id (bind m k) (Raise e) ms p.
Proof. intros Hm s. unfold bind. rewrite Hm. reflexivity. Qed.

Lemma emits_try_return {A} id (m : M A) h a ms p :
  emits id m (Return a) ms p -> emits id (try_exceptM m h) (Return a) ms p.
Proof. intros Hm s. unfold try_exceptM. rewrite Hm. reflexivity. Qed.

Lemma emits_try_raise {A} id (m : M A) h e r ms1 ms2 p1 p2 :
  emits id m (Raise e) ms1 p1 ->
  emits id (h e) r ms2 p2 ->
  emits id (try_exceptM m h) r (ms1 ++ ms2) (p1 ++ p2).
Proof.
  intros Hm Hh s. unfold try_exceptM. rewrite Hm, Hh.
  rewrite publish_all_with_spawned, with_spawned_app, publish_all_app.
  reflexivity.
Qed.

Lemma emits_start_process_return id w cmd cwd p :
  create_subprocess_exec w cmd cwd = Return p ->
  emits id (start_process w cmd cwd) (Return p) [] [cmd].
Proof. intros H s. unfold start_process. rewrite H. reflexivity. Qed.

Lemma emits_start_process_raise id w cmd cwd e :
  create_subprocess_exec w cmd cwd = Raise e ->
  emits id (start_process w cmd cwd) (Raise e) [] [].
Proof.
  intros H s. unfold start_process. rewrite H. simpl.
  rewrite with_spawned_nil. reflexivity.
Qed.

Lemma extract_log_returns line : exists r, extract_log line = Return r.
Proof.
  unfold extract_log, try_except.
  destruct (extract_log_body line) as [r|e]; eauto.
Qed.

Lemma emits_handle_line id raw :
  emits id (handle_line id raw) (Return tt) (line_messages raw) [].
Proof.
  intros s. unfold handle_line, line_messages, bind, lift.
  destruct (extract_log_returns (strip raw)) as [r ->].
  destruct r as [m|]; [destruct (is_empty m)|]; simpl;
    rewrite with_spawned_nil; reflexivity.
Qed.

Lemma emits_read_output id lines :
  emits id (read_output id lines) (output_result lines) (output_messages lines) [].
Proof.
  induction lines as [|[raw|e] rest IH];
    cbn [read_output output_result output_messages].
  - apply emits_ret.
  - apply (emits_bind_return id (lift (Return raw)) _ raw _ [] _ [] []);
      [apply emits_lift|].
    apply (emits_bind_return id (handle_line id raw) _ tt _ _ _ [] []);
      [apply emits_handle_line|apply IH].
  - apply emits_bind_raise, emits_lift.
Qed.

End RunnerFacts.

Section RunOutcome.

Implicit Types (s : state) (id msg : string) (q : nat) (w : world).

Lemma outcome_bind {A B} id (m : M A) (k : A -> M B) a ms p
    (P : result B -> list string -> Prop) :
  emits id m (Return a) ms p ->
  outcome id (k a) (fun r ms' => P r (ms ++ ms')) ->
  outcome id (bind m k) P.
Proof.
  intros Hm (r & ms' & p' & Hk & HP). exists r, (ms ++ ms'), (p ++ p').
  split; [eapply emits_bind_return; eassumption|exact HP].
Qed.

Lemma outcome_bind_raise {A B} id (m : M A) (k : A -> M B) e ms p
    (P : result B -> list string -> Prop) :
  emits id m (Raise e) ms p -> P (Raise e) ms -> outcome id (bind m k) P.
Proof.
  intros Hm HP. exists (Raise e), ms, p.
  split; [apply emits_bind_raise, Hm|exact HP].
Qed.

Lemma outcome_leaf {A} id (m : M A) r ms p
    (P : result A -> list string -> Prop) :
  emits id m r ms p -> P r ms -> outcome id m P.
Proof. intros Hm HP. exists r, ms, p. split; assumption. Qed.

Lemma emits_notify_spring id cfg w cid video_url :
  emits id (notify_spring cfg w cid video_url) (Return tt) [] [].
Proof.
  intros s. unfold notify_spring, lift, ret, try_except.
  destruct (SPRING_CALLBACK_URL cfg) as [u|]; [destruct (is_empty u); simpl|];
    try destruct (requests_post_json w u cid video_url) as [[]|e];
    rewrite with_spawned_nil; reflexivity.
Qed.

Lemma output_messages_notices w cmd cwd p :
  create_subprocess_exec w cmd cwd = Return p ->
  Forall (notice w) (output_messages (stdout p)).
Proof.
  intros H. apply List.Forall_forall. intros m Hm. right. right.
  exists cmd, cwd, p. split; assumption.
Qed.

Ltac notices :=
  cbv beta; unfold block_shape; cbv beta iota;
  repeat first
    [ apply List.Forall_nil
    | apply List.Forall_cons; [left; reflexivity|]
    | apply List.Forall_cons; [right; left; reflexivity|]
    | apply List.Forall_app; split
    | eapply output_messages_notices; eassumption ].

Lemma no_video_file_outcome id w tmp_dir media_dir
    (P : result string -> list string -> Prop) :
  (forall e, P (Raise e) []) ->
  outcome id (no_video_file w tmp_dir media_dir) P.
Proof.
  intros HP. unfold no_video_file.
  destruct (listdir w tmp_dir) as [l|e].
  2: { eapply outcome_bind_raise; [apply emits_lift|apply HP]. }
  eapply outcome_bind; [apply emits_lift|]. cbv beta.
  destruct (path_exists w media_dir).
  - destruct (listdir w media_dir) as [l'|e].
    + eapply outcome_bind.
      { apply (emits_bind_return id _ _ l' _ [] [] [] []);
          [apply emits_lift|apply emits_ret]. }
      eapply outcome_leaf; [apply emits_raise|apply HP].
    + eapply outcome_bind_raise; [apply emits_bind_raise, emits_lift|apply HP].
  - eapply outcome_bind; [apply emits_ret|].
    eapply outcome_leaf; [apply emits_raise|apply HP].
Qed.

Lemma render_and_upload_outcome cfg w id code jd tmp_dir :
  outcome id (render_and_upload cfg w id code jd tmp_dir) (block_shape w).
Proof.
  unfold render_and_upload. cbv beta zeta.
  destruct (write_text w _ code) as [[]|e].
  2: { eapply outcome_bind_raise; [apply emits_lift|notices]. }
  eapply outcome_bind; [apply emits_lift|]. cbv beta zeta.
  destruct (makedirs w _) as [[]|e].
  2: { eapply outcome_bind_raise; [apply emits_lift|notices]. }
  eapply outcome_bind; [apply emits_lift|]. cbv beta zeta.
  eapply outcome_bind; [apply emits_publish|]. cbv beta zeta.
  match goal with
  | |- context [start_process w ?cmd ?cwd] =>
      destruct (create_subprocess_exec w cmd cwd) as [proc|e] eqn:Hsp
  end.
  2: { eapply outcome_bind_raise;
         [apply emits_start_process_raise, Hsp|notices]. }
  eapply outcome_bind; [apply emits_start_process_return, Hsp|]. cbv beta zeta.
  pose proof (emits_read_output id (stdout proc)) as Hread.
  destruct (output_result (stdout proc)) as [[]|e] eqn:Hout.
  2: { eapply outcome_bind_raise; [exact Hread|notices]. }
  eapply outcome_bind; [exact Hread|]. cbv beta zeta.
  destruct (negb (returncode proc =? 0)%Z).
  { eapply outcome_leaf; [apply emits_raise|notices]. }
  destruct (find_video_files w tmp_dir _ id) as [|video_path others].
  { apply no_video_file_outcome. intros e. notices. }
  eapply outcome_bind; [apply emits_publish|]. cbv beta zeta.
  destruct (upload_to_supabase cfg w video_path _) as [video_url|e].
  2: { eapply outcome_bind_raise; [apply emits_lift|notices]. }
  eapply outcome_bind; [apply emits_lift|]. cbv beta zeta.
  eapply outcome_bind; [apply emits_publish|]. cbv beta zeta.
  eapply outcome_bind; [apply emits_notify_spring|]. cbv beta zeta.
  eapply outcome_leaf; [apply emits_ret|].
  unfold block_shape, completed_messages. eexists _, _, proc.
  split; [exact Hsp|]. split; [exact Hout|]. simpl. reflexivity.
Qed.

Lemma run_and_upload_body_outcome cfg w id code jd :
  outcome id (run_and_upload_body cfg w id code jd) (body_shape w).
Proof.
  unfold run_and_upload_body, with_temporary_directory.
  destruct (mkdtemp w) as [tmp_dir|e].
  2: { eapply outcome_bind_raise; [apply emits_lift|].
       left. apply List.Forall_nil. }
  destruct (render_and_upload_outcome cfg w id code jd tmp_dir)
    as (r & msgs & procs & Hblock & Hshape).
  destruct (cleanup w tmp_dir) as [[]|e] eqn:Hclean.
  - exists r, msgs, procs. split.
    + intros s. unfold bind, lift. rewrite Hblock, Hclean. reflexivity.
    + destruct r; [exact Hshape|left; exact Hshape].
  - exists (Raise e), msgs, procs. split.
    + intros s. unfold bind, lift. rewrite Hblock, Hclean. reflexivity.
    + destruct r; [right; split; [exact Hshape|eauto]|left; exact Hshape].
Qed.

(** Every job ends in one of the two shapes, whatever the store. *)
Lemma run_and_upload_outcome cfg w id code jd :
  outcome id (run_and_upload cfg w id code jd) (run_shape w).
Proof.
  destruct (run_and_upload_body_outcome cfg w id code jd)
    as ([url|e] & msgs & procs & Hbody & Hshape).
  - exists (Return url), msgs, procs. split; [|exact Hshape].
    apply emits_try_return, Hbody.
  - exists (Raise e), (msgs ++ ["Error: " +:+ str w e]), (procs ++ ([] ++ [])).
    split.
    + eapply emits_try_raise; [exact Hbody|].
      apply (emits_bind_return id _ _ tt _ [_] [] [] []);
        [apply emits_publish|apply emits_raise].
    + exists msgs. split; [reflexivity|exact Hshape].
Qed.

End RunOutcome.

Section RunFacts.

Implicit Types (s : state) (id msg : string) (q : nat) (w : world).

Lemma emits_subscribers {A} id (m : M A) r msgs procs s :
  emits id m r msgs procs -> subscribers (snd (m s)) = subscribers s.
Proof. intros H. rewrite H. simpl. apply publish_all_subscribers. Qed.

Lemma emits_queue {A} id (m : M A) r msgs procs s q old :
  emits id m r msgs procs ->
  subscribers s !! id = Some q -> queues s !! q = Some old ->
  queues (snd (m s)) !! q = Some (old ++ msgs).
Proof.
  intros H Hs Hq. rewrite H. simpl.
  rewrite (publish_all_registered id q old) by assumption.
  apply lookup_insert_eq.
Qed.

Lemma emits_unregistered {A} id (m : M A) r msgs procs s :
  emits id m r msgs procs ->
  subscribers s !! id = None -> queues (snd (m s)) = queues s.
Proof.
  intros H Hs. rewrite H. simpl.
  rewrite publish_all_unregistered by assumption. reflexivity.
Qed.

Lemma emits_result {A} id (m : M A) r msgs procs s :
  emits id m r msgs procs -> fst (m s) = r.
Proof. intros H. rewrite H. reflexivity. Qed.

Lemma error_message_is_terminal (text : string) :
  is_terminal ("Error: " +:+ text) = true.
Proof. unfold is_terminal. apply orb_true_iff. right. reflexivity. Qed.

Lemma line_messages_classified raw m :
  In m (line_messages raw) -> extract_log (strip raw) = Return (Some m).
Proof.
  unfold line_messages. destruct (extract_log (strip raw)) as [[m'|]|e];
    simpl; try tauto.
  destruct (is_empty m'); simpl; [tauto|]. intros [->|[]]. reflexivity.
Qed.

Lemma output_messages_classified lines m :
  In m (output_messages lines) ->
  exists line, extract_log line = Return (Some m).
Proof.
  induction lines as [|[raw|e] rest IH]; simpl; try tauto.
  intros H. apply in_app_or in H as [H|H]; [|exact (IH H)].
  exists (strip raw). apply line_messages_classified, H.
Qed.

Lemma startswith_contains p x : startswith p x = true -> contains p x = true.
Proof. intros H. destruct x; simpl; rewrite H; reflexivity. Qed.

Lemma contains_nonempty p x :
  is_empty p = false -> contains p x = true -> is_empty x = false.
Proof. destruct p, x; simpl; congruence. Qed.

Lemma startswith_lower p x :
  startswith p x = true -> startswith (lower p) (lower x) = true.
Proof.
  revert x. induction p as [|a p IH]; intros [|b x] H; simpl in *;
    try reflexivity; try discriminate.
  apply andb_true_iff in H as [Hab Hp]. apply Ascii.eqb_eq in Hab as ->.
  rewrite Ascii.eqb_refl. simpl. apply IH, Hp.
Qed.

Lemma contains_lower p x :
  contains p x = true -> contains (lower p) (lower x) = true.
Proof.
  induction x as [|c x IH]; intros H.
  - apply startswith_contains, (startswith_lower p EmptyString).
    destruct p; simpl in *; [reflexivity|discriminate].
  - rewrite contains_cons in H. apply orb_true_iff in H as [H|H].
    + apply startswith_contains, (startswith_lower p (String c x)), H.
    + change (lower (String c x)) with (String (lower_char c) (lower x)).
      rewrite contains_cons, IH by exact H. apply orb_true_r.
Qed.

Lemma rstrip_cons_nonempty c x :
  is_empty (rstrip x) = false -> rstrip (String c x) = String c (rstrip x).
Proof. intros H. simpl. rewrite H, andb_false_r. reflexivity. Qed.

Lemma rstrip_cons_no_space c x :
  isspace c = false -> rstrip (String c x) = String c (rstrip x).
Proof. intros H. simpl. rewrite H. reflexivity. Qed.

Lemma startswith_rstrip p x :
  no_space p = true -> startswith p x = true -> startswith p (rstrip x) = true.
Proof.
  revert x. induction p as [|a p IH]; intros x Hp H; [reflexivity|].
  destruct x as [|b x]; [discriminate|].
  cbn [no_space] in Hp. apply andb_true_iff in Hp as [Ha Hp].
  cbn [startswith] in H. apply andb_true_iff in H as [Hab H].
  pose proof Hab as Heq. apply Ascii.eqb_eq in Heq. subst b.
  rewrite rstrip_cons_no_space by (apply negb_true_iff, Ha).
  cbn [startswith]. rewrite Hab. simpl. apply IH; assumption.
Qed.

Lemma contains_rstrip p x :
  is_empty p = false -> no_space p = true ->
  contains p x = true -> contains p (rstrip x) = true.
Proof.
  intros Hne Hp. induction x as [|c x IH]; intros H; [exact H|].
  rewrite contains_cons in H. apply orb_true_iff in H as [H|H].
  - apply startswith_contains, startswith_rstrip; assumption.
  - specialize (IH H).
    rewrite rstrip_cons_nonempty by (eapply contains_nonempty; eassumption).
    rewrite contains_cons, IH. apply orb_true_r.
Qed.

Lemma contains_lstrip p x :
  is_empty p = false -> no_space p = true ->
  contains p x = true -> contains p (lstrip x) = true.
Proof.
  intros Hne Hp. induction x as [|c x IH]; intros H; [exact H|].
  cbn [lstrip]. destruct (isspace c) eqn:Hc; [|exact H].
  rewrite contains_cons in H. apply orb_true_iff in H as [H|H]; [|exact (IH H)].
  destruct p as [|a p]; [discriminate|].
  cbn [startswith] in H. apply andb_true_iff in H as [Hac _].
  apply Ascii.eqb_eq in Hac. subst c.
  cbn [no_space] in Hp. rewrite Hc in Hp. discriminate.
Qed.

Lemma contains_strip p x :
  is_empty p = false -> no_space p = true ->
  contains p x = true -> contains p (strip x) = true.
Proof.
  intros Hne Hp H. unfold strip.
  apply contains_rstrip, contains_lstrip; assumption.
Qed.

(** a line with [Played] in it is not the completion sentinel, however it
    is trimmed and whatever the case of its letters *)
Lemma played_not_completion line :
  contains "Played" line = true -> is_completion (strip line) = false.
Proof.
  intros H. unfold is_completion.
  destruct (String.eqb (lower (strip (strip line))) _) eqn:Heq; [|reflexivity].
  apply String.eqb_eq in Heq.
  do 2 apply (contains_strip "Played") in H; try reflexivity.
  apply contains_lower in H. rewrite Heq in H. discriminate H.
Qed.

Lemma animation_not_completion x : is_completion ("Animation " +:+ x) = false.
Proof. reflexivity. Qed.

(** no message of the classifier is the completion sentinel *)
Lemma classified_not_completion line m :
  extract_log line = Return (Some m) -> is_completion m = false.
Proof.
  unfold extract_log, extract_log_body, try_except.
  destruct (cond_partial line).
  { destruct (re_search_animation line); intros H; [|discriminate H].
    injection H as <-. apply animation_not_completion. }
  destruct (cond_progress line).
  { destruct (re_search_progress line) as [[n p]|]; intros H;
      [|discriminate H]. injection H as <-. apply animation_not_completion. }
  destruct (cond_file_ready line); [intros H; injection H as <-; reflexivity|].
  destruct (cond_rendered line); [intros H; injection H as <-; reflexivity|].
  destruct (cond_played line) eqn:Hplayed.
  { intros H; injection H as <-. apply played_not_completion, Hplayed. }
  destruct (cond_error line); intros H; [injection H as <-; reflexivity|].
  discriminate H.
Qed.

Lemma notices_not_terminal w pre :
  (forall cmd cwd p,
      create_subprocess_exec w cmd cwd = Return p ->
      no_error_progress p = true) ->
  Forall (notice w) pre ->
  Forall (fun m => is_terminal m = false) pre.
Proof.
  intros Hw Hpre. eapply Forall_impl; [exact Hpre|].
  intros m [->|[->|(cmd & cwd & p & Hsp & Hin)]]; try reflexivity.
  specialize (Hw cmd cwd p Hsp). unfold no_error_progress in Hw.
  rewrite forallb_forall in Hw. unfold is_terminal.
  destruct (output_messages_classified _ _ Hin) as [line Hline].
  rewrite (classified_not_completion line m Hline). simpl.
  apply negb_true_iff, Hw, Hin.
Qed.

(** the queue of a listener after a job that returned *)
Lemma returned_run_queue cfg w id code jd s s' q old url :
  subscribers s !! id = Some q ->
  queues s !! q = Some old ->
  run_and_upload cfg w id code jd s = (Return url, s') ->
  exists cmd cwd p,
    create_subprocess_exec w cmd cwd = Return p
    /\ subscribers s' !! id = Some q
    /\ queues s' !! q
       = Some (old ++ ["Starting video generation..."]
               ++ output_messages (stdout p)
               ++ ["Uploading video..."; "Video generation completed!"]).
Proof.
  intros Hs Hq Hrun.
  destruct (run_and_upload_outcome cfg w id code jd)
    as (r0 & msgs & procs & Hemits & Hshape).
  pose proof (emits_result id _ _ _ _ s Hemits) as Hr.
  pose proof (emits_subscribers id _ _ _ _ s Hemits) as Hsub.
  pose proof (emits_queue id _ _ _ _ s q old Hemits Hs Hq) as Hq'.
  rewrite Hrun in Hr, Hsub, Hq'. simpl in Hr, Hsub, Hq'. subst r0.
  simpl in Hshape. destruct Hshape as (cmd & cwd & p & Hsp & _ & ->).
  exists cmd, cwd, p. split; [exact Hsp|].
  split; [rewrite Hsub; exact Hs|exact Hq'].
Qed.

(** A stream that was opened before a job that returned, and reads after
    it, forwards the start notice, the progress messages, the upload
    notice and the completion sentinel, in this order, and closes, when
    no progress message begins with [error:]. *)
Lemma stream_of_returned_run cfg w id code jd s s' q url n :
  (forall cmd cwd p,
      create_subprocess_exec w cmd cwd = Return p ->
      no_error_progress p = true) ->
  subscribers s !! id = Some q ->
  queues s !! q = Some [] ->
  run_and_upload cfg w id code jd s = (Return url, s') ->
  exists progress,
    (length progress + 2 < n ->
     event_gen_loop n id q s'
     = (map message_frame
          (["Starting video generation..."] ++ progress
           ++ ["Uploading video..."; "Video generation completed!"]),
        Closed,
        unregister id
          (State (<[q := []]> (queues s')) (subscribers s') (spawned s')))).
Proof.
  intros Hw Hs Hq Hrun.
  destruct (returned_run_queue cfg w id code jd s s' q [] url Hs Hq Hrun)
    as (cmd & cwd & p & Hsp & _ & Hq').
  exists (output_messages (stdout p)). intros Hn.
  assert (Hsplit :
    ["Starting video generation..."] ++ output_messages (stdout p)
    ++ ["Uploading video..."; "Video generation completed!"]
    = ("Starting video generation..."
       :: output_messages (stdout p) ++ ["Uploading video..."])
      ++ ["Video generation completed!"]).
  { simpl. rewrite <- app_assoc. reflexivity. }
  rewrite Hsplit. apply event_gen_loop_drains.
  - apply (notices_not_terminal w); [exact Hw|].
    apply List.Forall_cons; [left; reflexivity|].
    apply List.Forall_app. split;
      [eapply output_messages_notices; eassumption|].
    apply List.Forall_cons; [right; left; reflexivity|apply List.Forall_nil].
  - reflexivity.
  - rewrite <- Hsplit. exact Hq'.
  - simpl. rewrite length_app. simpl. lia.
Qed.

End RunFacts.

(** C1, as stated, fails: a job whose subprocess prints the line
    [error: Played 1 animations] and succeeds.  Rule 5 of the classifier
    passes the line on as it is, so the queue of the listening stream
    receives a first terminal message, and after it the upload notice and
    the completion sentinel. *)
Lemma two_terminal_messages :
  let out :=
    run_and_upload Sample.cfg
      (Sample.world_of [Return "error: Played 1 animations"] 0)
      "job-1" "print(1)" [] Sample.listening in
  fst out = Return "https://storage.example/storage/v1/object/public/videos/job-1.mp4"
  /\ channel "job-1" (snd out)
     = Some ["Starting video generation..."; "error: Played 1 animations";
             "Uploading video..."; "Video generation completed!"]
  /\ is_terminal "error: Played 1 animations" = true
  /\ is_terminal "Video generation completed!" = true
  /\ (forall msgs, channel "job-1" (snd out) = Some msgs ->
      List.length (List.filter is_terminal msgs) = 2%nat).
Proof.
  vm_compute. repeat split; try reflexivity.
  intros msgs H. injection H as <-. reflexivity.
Qed.

(** A second way to two terminal messages: the block returns, having
    published the completion sentinel, and the removal of the scratch
    directory fails on the way out of the [with]. *)
Lemma completion_then_cleanup_failure :
  let out :=
    run_and_upload Sample.cfg
      (Sample.with_failing_cleanup (Sample.world_of [] 0))
      "job-1" "print(1)" [] Sample.listening in
  fst out = Raise (OtherException "Directory not empty")
  /\ channel "job-1" (snd out)
     = Some ["Starting video generation..."; "Uploading video...";
             "Video generation completed!"; "Error: Directory not empty"].
Proof. vm_compute. split; reflexivity. Qed.

(** C1, amended.  When no message that the classifier draws from the
    output of the subprocess begins with [error:], in any letter case, and
    the removal of the scratch directory does not fail, a job publishes
    exactly one terminal message, as its last message: on the queue
    registered for
    its id the new messages are non-terminal ones followed by one terminal
    one, which is the completion sentinel when the job returns and
    [Error: ] followed by the text of the exception when it raises; when
    no queue is registered nothing is enqueued; the registrations are left
    as they were; and an exception raised by the body is published in
    that form by the handler and raised again. *)
Theorem one_terminal_message (cfg : config) (w : world) (id code : string)
    (jd : list (string * json)) (s : state) :
  (forall cmd cwd p,
      create_subprocess_exec w cmd cwd = Return p ->
      no_error_progress p = true) ->
  (forall d, cleanup w d = Return tt) ->
  let r := fst (run_and_upload cfg w id code jd s) in
  let s' := snd (run_and_upload cfg w id code jd s) in
  subscribers s' = subscribers s
  /\ (subscribers s !! id = None -> queues s' = queues s)
  /\ (forall q old,
        subscribers s !! id = Some q -> queues s !! q = Some old ->
        exists pre t,
          queues s' !! q = Some (old ++ pre ++ [t])
          /\ Forall (fun m => is_terminal m = false) pre
          /\ is_terminal t = true
          /\ match r with
             | Return _ => t = "Video generation completed!"
             | Raise e => t = "Error: " +:+ str w e
             end)
  /\ (forall e s0,
        run_and_upload_body cfg w id code jd s = (Raise e, s0) ->
        r = Raise e /\ s' = publish id ("Error: " +:+ str w e) s0).
Proof.
  intros Hw Hclean r s'.
  destruct (run_and_upload_outcome cfg w id code jd)
    as (r0 & msgs & procs & Hemits & Hshape).
  assert (Hr : r = r0) by (apply (emits_result id _ _ _ _ _ Hemits)).
  split; [apply (emits_subscribers id _ _ _ _ _ Hemits)|].
  split; [apply (emits_unregistered id _ _ _ _ _ Hemits)|].
  split.
  - intros q old Hs Hq.
    pose proof (emits_queue id _ _ _ _ s q old Hemits Hs Hq) as Hq'.
    fold s' in Hq'. rewrite Hr. destruct r0 as [url|e]; simpl in Hshape.
    + destruct Hshape as (cmd & cwd & p & Hsp & _ & ->).
      exists ("Starting video generation..."
              :: output_messages (stdout p) ++ ["Uploading video..."]),
        "Video generation completed!".
      split; [|split; [|split; reflexivity]].
      * rewrite Hq'. simpl. rewrite <- app_assoc. reflexivity.
      * apply (notices_not_terminal w); [exact Hw|].
        apply List.Forall_cons; [left; reflexivity|].
        apply List.Forall_app. split;
          [eapply output_messages_notices; eassumption|].
        apply List.Forall_cons; [right; left; reflexivity|apply List.Forall_nil].
    + destruct Hshape as (pre & -> & [Hpre|(_ & d & Hd)]);
        [|rewrite Hclean in Hd; discriminate Hd].
      exists pre, ("Error: " +:+ str w e).
      split; [exact Hq'|]. split; [apply (notices_not_terminal w); assumption|].
      split; [apply error_message_is_terminal|reflexivity].
  - intros e s0 Hbody. unfold r, s', run_and_upload, try_exceptM.
    rewrite Hbody. split; reflexivity.
Qed.

Lemma one_terminal_message_witness :
  exists pre t,
    queues (snd (run_and_upload Sample.cfg
                   (Sample.world_of [Return "Played 3 animations"] 0)
                   "job-1" "print(1)" [] Sample.listening)) !! 0%nat
    = Some ([] ++ pre ++ [t])
    /\ Forall (fun m => is_terminal m = false) pre
    /\ is_terminal t = true
    /\ t = "Video generation completed!".
Proof.
  pose proof (one_terminal_message Sample.cfg
                (Sample.world_of [Return "Played 3 animations"] 0)
                "job-1" "print(1)" [] Sample.listening) as H.
  destruct H as (_ & _ & H & _).
  - intros cmd cwd p Hp. injection Hp as <-. reflexivity.
  - reflexivity.
  - apply (H 0%nat []); reflexivity.
Defined.

(** C6.  A job that returns, with a queue registered for its id, has put
    on that queue, in this order, the start notice, the messages the
    classifier drew from the output lines, the upload notice and the
    completion sentinel, and has left the registration in place; and the
    streaming endpoint, in the turn in which it finds the completion
    sentinel at the head of its queue, yields the frame of the sentinel
    and nothing else, leaves its loop and unregisters the id. *)
Theorem successful_run_order (cfg : config) (w : world) (id code : string)
    (jd : list (string * json)) (s s' : state) (q : nat)
    (old : list string) (url : string) :
  subscribers s !! id = Some q ->
  queues s !! q = Some old ->
  run_and_upload cfg w id code jd s = (Return url, s') ->
  (exists progress,
      Forall (fun m => exists line, extract_log line = Return (Some m)) progress
      /\ subscribers s' !! id = Some q
      /\ queues s' !! q
         = Some (old ++ ["Starting video generation..."] ++ progress
                 ++ ["Uploading video..."; "Video generation completed!"]))
  /\ (forall sq rest,
        queues sq !! q = Some ("Video generation completed!" :: rest) ->
        event_gen_turn id q sq
        = ([message_frame "Video generation completed!"], Closed,
           unregister id
             (State (<[q := rest]> (queues sq)) (subscribers sq) (spawned sq)))).
Proof.
  intros Hs Hq Hrun. split.
  - destruct (returned_run_queue cfg w id code jd s s' q old url Hs Hq Hrun)
      as (cmd & cwd & p & Hsp & Hsub & Hq').
    exists (output_messages (stdout p)).
    split; [|split; [exact Hsub|exact Hq']].
    apply List.Forall_forall. intros m Hm.
    apply (output_messages_classified (stdout p)), Hm.
  - intros sq rest Hhead.
    rewrite (turn_forwards_head id q sq _ rest Hhead). reflexivity.
Qed.

Lemma successful_run_order_witness :
  exists progress,
    Forall (fun m => exists line, extract_log line = Return (Some m)) progress
    /\ subscribers
         (snd (run_and_upload Sample.cfg
                 (Sample.world_of [Return "Animation 3: rendering 42%|x"] 0)
                 "job-1" "print(1)" [] Sample.listening)) !! "job-1"
       = Some 0%nat
    /\ queues
         (snd (run_and_upload Sample.cfg
                 (Sample.world_of [Return "Animation 3: rendering 42%|x"] 0)
                 "job-1" "print(1)" [] Sample.listening)) !! 0%nat
       = Some ([] ++ ["Starting video generation..."] ++ progress
               ++ ["Uploading video..."; "Video generation completed!"]).
Proof.
  apply (successful_run_order Sample.cfg
           (Sample.world_of [Return "Animation 3: rendering 42%|x"] 0)
           "job-1" "print(1)" [] Sample.listening _ 0%nat []
           "https://storage.example/storage/v1/object/public/videos/job-1.mp4");
    reflexivity.
Defined.

(** C10.  The result of a job and the store it leaves, hence the URL it
    returns and every message it publishes, are the same for any two
    metadata mappings; so is the answer of the submit endpoint. *)
Theorem metadata_is_ignored (cfg : config) (w : world) (id code : string)
    (jd1 jd2 : list (string * json)) (s : state) :
  run_and_upload cfg w id code jd1 s = run_and_upload cfg w id code jd2 s
  /\ run cfg w {| conversation_id := id; code := code; json_data := jd1 |} s
     = run cfg w {| conversation_id := id; code := code; json_data := jd2 |} s.
Proof. split; reflexivity. Qed.

(** ** The submit endpoint *)

(** every failure of the submit endpoint carries the status code 500 *)
Lemma run_failure_status cfg w req s e s' :
  run cfg w req s = (Raise e, s') ->
  exists detail, e = HTTPException 500 detail.
Proof.
  unfold run, try_exceptM, raise. intros H.
  destruct (is_empty (conversation_id req) || is_empty (code req)).
  - injection H as <- _. eauto.
  - match type of H with
    | context [bind ?m ?k ?s] => unfold bind in H; destruct (m s) as [[u|e0] s1]
    end; simpl in H; [discriminate|].
    injection H as <- _. eauto.
Qed.

(** C2, evaluated on the code.  A request with an empty conversation id
    starts no subprocess, but its [HTTPException] of status 400 is raised
    inside the [try] block, caught by [except Exception] and replaced by
    one of status 500: the status a failed pipeline gets. *)
Theorem run_empty_id_gives_500 (cfg : config) (w : world) (s : state) :
  run cfg w {| conversation_id := ""; code := "print(1)"; json_data := [] |} s
  = (Raise (HTTPException 500
              (str_HTTPException w 400 "conversation_id and code are required")),
     s)
  /\ fst (run Sample.cfg (Sample.world_of [] 2)
            {| conversation_id := "job-1"; code := "print(1)"; json_data := [] |}
            Sample.listening)
     = Raise (HTTPException 500 "Command returned non-zero exit status").
Proof. split; reflexivity. Qed.

(** * Further properties of the code *)

(** ** The registry and the health check *)

(** X1.  The count the health check reports follows the registrations:
    opening a stream adds one when the id had no queue and nothing when
    it had one, the clean-up of a stream takes one away when the id was
    registered and nothing otherwise, and publishing leaves the count as
    it is. *)
Theorem health_count_follows_registrations (id msg : string) (s : state) :
  health_check (snd (register id s))
  = match subscribers s !! id with
    | Some _ => health_check s
    | None => S (health_check s)
    end
  /\ health_check (unregister id s)
     = match subscribers s !! id with
       | Some _ => pred (health_check s)
       | None => health_check s
       end
  /\ health_check (publish id msg s) = health_check s.
Proof.
  unfold health_check, count. rewrite register_subscribers, publish_subscribers.
  unfold unregister. simpl. rewrite map_size_insert, map_size_delete.
  destruct (subscribers s !! id); repeat split; reflexivity.
Qed.

Section StreamLife.

Implicit Types (s : state) (id msg : string) (q : nat).

Lemma idle_loop id q s n :
  queues s !! q = Some [] ->
  event_gen_loop n id q s = (repeat keepalive_frame n, Open, s).
Proof.
  intros H. induction n as [|n IH]; [reflexivity|].
  cbn [event_gen_loop]. rewrite (idle_turn_sends_keepalive id q s H), IH.
  reflexivity.
Qed.

Lemma loop_stops_at_terminal id q pre t rest :
  Forall (fun m => is_terminal m = false) pre ->
  is_terminal t = true ->
  forall n s,
    queues s !! q = Some (pre ++ t :: rest) ->
    length pre < n ->
    event_gen_loop n id q s
    = (map message_frame (pre ++ [t]), Closed,
       unregister id
         (State (<[q := rest]> (queues s)) (subscribers s) (spawned s))).
Proof.
  intros Hpre Ht. induction Hpre as [|m pre Hm _ IH]; intros n s Hq Hn.
  - destruct n as [|n]; [lia|]. cbn [event_gen_loop].
    rewrite (turn_forwards_head id q s t rest Hq). cbv zeta. rewrite Ht.
    reflexivity.
  - destruct n as [|n]; [simpl in Hn; lia|]. cbn [event_gen_loop].
    rewrite (turn_forwards_head id q s m (pre ++ t :: rest) Hq). cbv zeta.
    rewrite Hm. rewrite IH.
    + simpl. rewrite insert_insert_eq. reflexivity.
    + simpl. apply lookup_insert_eq.
    + simpl in Hn. lia.
Qed.

End StreamLife.

(** X2.  A stream whose queue stays empty sends one keep-alive frame for
    every wait that times out, stays open, and leaves the store, with its
    registration, as it is. *)
Theorem idle_stream_keeps_alive (id : string) (q : nat) (s : state) (n : nat) :
  queues s !! q = Some [] ->
  event_gen_loop n id q s = (repeat keepalive_frame n, Open, s).
Proof. apply idle_loop. Qed.

Lemma idle_stream_keeps_alive_witness :
  event_gen_loop 3 "job-1" 0 Sample.listening
  = (repeat keepalive_frame 3, Open, Sample.listening).
Proof. apply (idle_stream_keeps_alive "job-1" 0%nat). reflexivity. Defined.

(** X3.  A stream forwards the messages of its queue in the order they
    were put, one frame each, up to the first terminal message; with the
    frame of that message it closes and unregisters its id, and what was
    queued behind the terminal message is left in the queue, unread. *)
Theorem stream_stops_at_first_terminal (id : string) (q : nat)
    (pre : list string) (t : string) (rest : list string) (n : nat) (s : state) :
  Forall (fun m => is_terminal m = false) pre ->
  is_terminal t = true ->
  queues s !! q = Some (pre ++ t :: rest) ->
  length pre < n ->
  event_gen_loop n id q s
  = (map message_frame (pre ++ [t]), Closed,
     unregister id
       (State (<[q := rest]> (queues s)) (subscribers s) (spawned s))).
Proof. intros Hpre Ht Hq Hn. apply loop_stops_at_terminal; assumption. Qed.

Lemma stream_stops_at_first_terminal_witness :
  let s := publish_all "job-1" ["Rendering complete!"; "Error: boom"; "late"]
             Sample.listening in
  event_gen_loop 5 "job-1" 0 s
  = (map message_frame (["Rendering complete!"] ++ ["Error: boom"]), Closed,
     unregister "job-1"
       (State (<[0%nat := ["late"]]> (queues s)) (subscribers s) (spawned s))).
Proof.
  intros s.
  apply (stream_stops_at_first_terminal "job-1" 0%nat ["Rendering complete!"]
           "Error: boom" ["late"] 5 s).
  - repeat constructor.
  - reflexivity.
  - reflexivity.
  - simpl. lia.
Defined.

(** X4.  A stream that has just been opened finds nothing of what was
    published for its id before: its queue is new and empty, so from any
    store it only sends keep-alive frames until something is published
    again. *)
Theorem new_stream_misses_earlier_messages (id : string) (s : state) (n : nat) :
  event_gen n id s = (repeat keepalive_frame n, Open, snd (register id s))
  /\ channel id (snd (register id s)) = Some [].
Proof.
  unfold event_gen, channel, register, new_queue. cbv beta iota zeta.
  cbn [fst snd queues subscribers]. split.
  - apply idle_loop. cbn [queues]. apply lookup_insert_eq.
  - rewrite lookup_insert_eq. simpl. apply lookup_insert_eq.
Qed.

(** X5.  A stream that opens for an id with no queue, receives messages
    and closes on a terminal one leaves the registrations, and so the
    count of the health check, as they were before it opened. *)
Theorem stream_open_close_restores_registry (id : string) (s : state)
    (pre : list string) (t : string) (n : nat) :
  subscribers s !! id = None ->
  Forall (fun m => is_terminal m = false) pre ->
  is_terminal t = true ->
  length pre < n ->
  let opened := register id s in
  let out :=
    event_gen_loop n id (fst opened)
      (publish_all id (pre ++ [t]) (snd opened)) in
  fst out = (map message_frame (pre ++ [t]), Closed)
  /\ subscribers (snd out) = subscribers s
  /\ health_check (snd out) = health_check s.
Proof.
  intros Hnone Hpre Ht Hn opened out.
  assert (Hs1 : subscribers (snd opened) !! id = Some (fst opened)).
  { unfold opened. rewrite register_subscribers. apply lookup_insert_eq. }
  assert (Hq1 : queues (snd opened) !! fst opened = Some []).
  { unfold opened. rewrite register_queues. apply lookup_insert_eq. }
  assert (Hq2 : queues (publish_all id (pre ++ [t]) (snd opened)) !! fst opened
                = Some (pre ++ [t])).
  { rewrite (publish_all_registered id (fst opened) []) by assumption.
    apply lookup_insert_eq. }
  assert (Hout : out = (map message_frame (pre ++ [t]), Closed,
                        unregister id
                          (State (<[fst opened := []]>
                                    (queues (publish_all id (pre ++ [t]) (snd opened))))
                                 (subscribers (publish_all id (pre ++ [t]) (snd opened)))
                                 (spawned (publish_all id (pre ++ [t]) (snd opened)))))).
  { unfold out. apply loop_stops_at_terminal; assumption. }
  assert (Hsub : subscribers (snd out) = subscribers s).
  { rewrite Hout. cbn [snd unregister subscribers].
    rewrite publish_all_subscribers.
    unfold opened. rewrite register_subscribers.
    apply delete_insert_id, Hnone. }
  split; [rewrite Hout; reflexivity|]. split; [exact Hsub|].
  unfold health_check, count. rewrite Hsub. reflexivity.
Qed.

Lemma stream_open_close_restores_registry_witness :
  subscribers
    (snd (event_gen_loop 4 "job-1" (fst (register "job-1" (State ∅ ∅ [])))
            (publish_all "job-1" (["Uploading video..."]
                                  ++ ["Video generation completed!"])
               (snd (register "job-1" (State ∅ ∅ []))))))
  = subscribers (State ∅ ∅ []).
Proof.
  apply (stream_open_close_restores_registry "job-1" (State ∅ ∅ [])
           ["Uploading video..."] "Video generation completed!" 4).
  - reflexivity.
  - repeat constructor.
  - reflexivity.
  - simpl. lia.
Defined.

(** X6.  The clean-up of a closing stream removes whatever queue is
    registered for its id.  When a second stream was opened for the id
    while a terminal message waited in the queue of the first, the first
    stream, on reading that message, closes and removes the registration
    of the second: no queue is registered for the id any more, and every
    later message for it is dropped. *)
Theorem closing_stream_drops_newer_registration (id : string) (s : state)
    (q1 : nat) (t : string) (rest : list string) (msg : string) :
  queues s !! q1 = Some (t :: rest) ->
  is_terminal t = true ->
  let second := register id s in
  let out := event_gen_turn id q1 (snd second) in
  get id (snd second) = Some (fst second)
  /\ fst second <> q1
  /\ fst out = ([message_frame t], Closed)
  /\ get id (snd out) = None
  /\ queues (snd out) !! fst second = Some []
  /\ publish id msg (snd out) = snd out.
Proof.
  intros Hq1 Ht second out.
  assert (Hne : fst second <> q1).
  { apply register_differs_from_existing. eauto. }
  assert (Hq1' : queues (snd second) !! q1 = Some (t :: rest)).
  { unfold second. rewrite register_queues, lookup_insert_ne; [exact Hq1|].
    exact Hne. }
  assert (Hout : out = ([message_frame t], Closed,
                        unregister id
                          (State (<[q1 := rest]> (queues (snd second)))
                                 (subscribers (snd second))
                                 (spawned (snd second))))).
  { unfold out. rewrite (turn_forwards_head id q1 _ t rest Hq1'). cbv zeta.
    rewrite Ht. reflexivity. }
  assert (Hgone : get id (snd out) = None).
  { rewrite Hout. unfold get, unregister. cbn [snd subscribers].
    apply lookup_delete_eq. }
  split.
  { unfold get, second. rewrite register_subscribers. apply lookup_insert_eq. }
  split; [exact Hne|]. split; [rewrite Hout; reflexivity|].
  split; [exact Hgone|]. split.
  - rewrite Hout. cbn [snd unregister queues].
    rewrite lookup_insert_ne by (intros E; apply Hne; symmetry; exact E).
    unfold second. rewrite register_queues. apply lookup_insert_eq.
  - apply publish_unregistered, Hgone.
Qed.

Lemma closing_stream_drops_newer_registration_witness :
  get "job-1"
    (snd (event_gen_turn "job-1" 0
            (snd (register "job-1"
                    (publish "job-1" "Error: boom" Sample.listening)))))
  = None.
Proof.
  apply (closing_stream_drops_newer_registration "job-1"
           (publish "job-1" "Error: boom" Sample.listening) 0%nat
           "Error: boom" [] "late");
    reflexivity.
Defined.

(** ** The invariant of the registry *)

Section RegistryInvariant.

Implicit Types (s : state) (id msg : string) (q : nat).

Lemma registry_ok_initial : registry_ok (State ∅ ∅ []).
Proof.
  split; intros *; simpl; rewrite lookup_empty; discriminate.
Qed.

(** fewer registrations and no fewer queues keep the registry well formed *)
Lemma registry_ok_mono s s' :
  (forall id q, subscribers s' !! id = Some q -> subscribers s !! id = Some q) ->
  (forall q, is_Some (queues s !! q) -> is_Some (queues s' !! q)) ->
  registry_ok s -> registry_ok s'.
Proof.
  intros Hsub Hq [Hex Hinj]. split.
  - intros id q H. apply Hq, (Hex id), Hsub, H.
  - intros id1 id2 q H1 H2. apply (Hinj id1 id2 q); apply Hsub; assumption.
Qed.

Lemma registry_ok_register id s :
  registry_ok s -> registry_ok (snd (register id s)).
Proof.
  intros [Hex Hinj]. split.
  - intros id' q. rewrite register_subscribers, register_queues.
    destruct (decide (id = id')) as [<-|Hne].
    + rewrite lookup_insert_eq. intros [= <-]. rewrite lookup_insert_eq. eauto.
    + rewrite lookup_insert_ne by exact Hne. intros H.
      destruct (Hex id' q H) as [l Hl].
      rewrite lookup_insert_ne; [eauto|]. intros Heq. subst q.
      rewrite fresh_queue_absent in Hl. discriminate.
  - intros id1 id2 q. rewrite register_subscribers.
    destruct (decide (id = id1)) as [<-|Hne1];
      destruct (decide (id = id2)) as [<-|Hne2];
      rewrite ?lookup_insert_eq, ?lookup_insert_ne by assumption.
    + reflexivity.
    + intros [= <-] H2. destruct (Hex id2 _ H2) as [l Hl].
      rewrite fresh_queue_absent in Hl. discriminate.
    + intros H1 [= <-]. destruct (Hex id1 _ H1) as [l Hl].
      rewrite fresh_queue_absent in Hl. discriminate.
    + apply Hinj.
Qed.

Lemma put_keeps_queues q0 msg s q :
  is_Some (queues s !! q) -> is_Some (queues (put q0 msg s) !! q).
Proof.
  intros [l Hl]. unfold put. simpl. destruct (decide (q0 = q)) as [<-|Hne].
  - rewrite lookup_alter_eq, Hl. simpl. eauto.
  - rewrite lookup_alter_ne by exact Hne. eauto.
Qed.

Lemma publish_keeps_queues id msg s q :
  is_Some (queues s !! q) -> is_Some (queues (publish id msg s) !! q).
Proof.
  unfold publish. destruct (subscribers s !! id); [apply put_keeps_queues|auto].
Qed.

Lemma publish_all_keeps_queues id msgs s q :
  is_Some (queues s !! q) -> is_Some (queues (publish_all id msgs s) !! q).
Proof.
  revert s. induction msgs as [|m msgs IH]; intros s H; [exact H|].
  unfold publish_all in *. simpl. apply IH, publish_keeps_queues, H.
Qed.

Lemma turn_keeps_queues id q0 s q :
  is_Some (queues s !! q) ->
  is_Some (queues (snd (event_gen_turn id q0 s)) !! q).
Proof.
  intros H. unfold event_gen_turn, wait_for_get.
  destruct (queues s !! q0) as [[|m rest]|] eqn:Hq0; try exact H.
  assert (H' : is_Some (<[q0 := rest]> (queues s) !! q)).
  { destruct (decide (q0 = q)) as [<-|Hne].
    - rewrite lookup_insert_eq. eauto.
    - rewrite lookup_insert_ne by exact Hne. exact H. }
  destruct (is_completion m); [exact H'|].
  destruct (is_error m); exact H'.
Qed.

Lemma turn_subscribers id q0 s id' q :
  subscribers (snd (event_gen_turn id q0 s)) !! id' = Some q ->
  subscribers s !! id' = Some q.
Proof.
  unfold event_gen_turn, wait_for_get.
  destruct (queues s !! q0) as [[|m rest]|]; try (intros H; exact H).
  assert (Hdel : delete id (subscribers s) !! id' = Some q ->
                 subscribers s !! id' = Some q).
  { destruct (decide (id = id')) as [<-|Hne].
    - rewrite lookup_delete_eq. discriminate.
    - rewrite lookup_delete_ne by exact Hne. auto. }
  destruct (is_completion m); [exact Hdel|].
  destruct (is_error m); [exact Hdel|]. intros H; exact H.
Qed.

Lemma run_and_upload_store cfg w id code jd s :
  exists msgs procs,
    snd (run_and_upload cfg w id code jd s)
    = with_spawned procs (publish_all id msgs s).
Proof.
  destruct (run_and_upload_outcome cfg w id code jd)
    as (r & msgs & procs & Hemits & _).
  exists msgs, procs. rewrite Hemits. reflexivity.
Qed.

End RegistryInvariant.

(** X7.  The registry stays well formed: when every registered queue
    exists and no queue is registered for two ids, this still holds after
    a stream is opened, after the clean-up of a stream, after a message
    is published, after a turn of a stream, after a whole job, and after
    the shutdown; and it holds of the empty registry. *)
Theorem registry_ok_preserved (cfg : config) (w : world) (id msg code : string)
    (jd : list (string * json)) (q : nat) (s : state) :
  registry_ok s ->
  registry_ok (State ∅ ∅ [])
  /\ registry_ok (snd (register id s))
  /\ registry_ok (unregister id s)
  /\ registry_ok (publish id msg s)
  /\ registry_ok (snd (event_gen_turn id q s))
  /\ registry_ok (snd (run_and_upload cfg w id code jd s))
  /\ registry_ok (clear s).
Proof.
  intros Hok. split; [apply registry_ok_initial|].
  split; [apply registry_ok_register, Hok|].
  split.
  { apply (registry_ok_mono s); [|auto|exact Hok].
    intros id' q'. unfold unregister. simpl.
    destruct (decide (id = id')) as [<-|Hne].
    - rewrite lookup_delete_eq. discriminate.
    - rewrite lookup_delete_ne by exact Hne. auto. }
  split.
  { apply (registry_ok_mono s); [| |exact Hok].
    - intros id' q'. rewrite publish_subscribers. auto.
    - intros q'. apply publish_keeps_queues. }
  split.
  { apply (registry_ok_mono s); [| |exact Hok].
    - apply turn_subscribers.
    - intros q'. apply turn_keeps_queues. }
  split.
  { destruct (run_and_upload_store cfg w id code jd s) as (msgs & procs & ->).
    apply (registry_ok_mono s); [| |exact Hok].
    - intros id' q'. simpl. rewrite publish_all_subscribers. auto.
    - intros q'. simpl. apply publish_all_keeps_queues. }
  apply (registry_ok_mono s); [| |exact Hok].
  - intros id' q'. simpl. rewrite lookup_empty. discriminate.
  - auto.
Qed.

Lemma registry_ok_preserved_witness :
  registry_ok (snd (register "job-1" (State ∅ ∅ []))).
Proof.
  apply (registry_ok_preserved Sample.cfg (Sample.world_of [] 0)
           "job-1" "" "" [] 0%nat (State ∅ ∅ [])).
  split; intros *; simpl; rewrite lookup_empty; discriminate.
Defined.

(** X8.  Jobs do not talk across ids: in a well-formed registry a job
    leaves the queue registered for every other id exactly as it was,
    and it neither adds nor removes a registration. *)
Theorem job_leaves_other_channels (cfg : config) (w : world)
    (id id' code : string) (jd : list (string * json)) (s : state) :
  registry_ok s ->
  id' <> id ->
  channel id' (snd (run_and_upload cfg w id code jd s)) = channel id' s
  /\ subscribers (snd (run_and_upload cfg w id code jd s)) = subscribers s.
Proof.
  intros [Hex Hinj] Hne.
  destruct (run_and_upload_store cfg w id code jd s) as (msgs & procs & ->).
  unfold channel. simpl. rewrite publish_all_subscribers. split; [|reflexivity].
  destruct (subscribers s !! id') as [q'|] eqn:Hq'; [simpl|reflexivity].
  destruct (subscribers s !! id) as [q|] eqn:Hq.
  - destruct (Hex id q Hq) as [old Hold].
    apply (publish_all_other_queue id q q' old); try assumption.
    intros ->. apply Hne, (Hinj id' id q); assumption.
  - rewrite publish_all_unregistered by exact Hq. reflexivity.
Qed.

Lemma job_leaves_other_channels_witness :
  channel "job-2"
    (snd (run_and_upload Sample.cfg (Sample.world_of [Return "Played 1"] 0)
            "job-1" "print(1)" []
            (snd (register "job-2" Sample.listening))))
  = channel "job-2" (snd (register "job-2" Sample.listening)).
Proof.
  apply (job_leaves_other_channels Sample.cfg
           (Sample.world_of [Return "Played 1"] 0) "job-1" "job-2"
           "print(1)" [] (snd (register "job-2" Sample.listening))).
  - apply registry_ok_register, registry_ok_register.
    split; intros *; simpl; rewrite lookup_empty; discriminate.
  - discriminate.
Defined.

(** ** More on the classifier *)

Section ClassifierMore.

Implicit Types (s p x line : string) (c : ascii).

Lemma span_digits_all_digits s : all_digits (fst (span_digits s)) = true.
Proof.
  induction s as [|c s IH]; [reflexivity|]. cbn [span_digits].
  destruct (isdigit c) eqn:Hc; [|reflexivity].
  destruct (span_digits s) as [d r]. simpl in *. rewrite Hc, IH. reflexivity.
Qed.






Lemma percent_at_sound s p :
  percent_at s = Some p -> all_digits p = true /\ is_empty p = false.
Proof.
  unfold percent_at. pose proof (span_digits_all_digits s) as Hd.
  destruct (span_digits s) as [d r]. cbn [fst] in Hd.
  destruct (is_empty d) eqn:He; cbn [negb andb]; [discriminate|].
  destruct (startswith "%|" r); [|discriminate]. intros [= <-]. auto.
Qed.

Lemma lazy_percent_sound s p :
  lazy_percent s = Some p -> all_digits p = true /\ is_empty p = false.
Proof.
  induction s as [|c s IH]; cbn [lazy_percent].
  - destruct (percent_at EmptyString) eqn:H; [|discriminate].
    intros [= <-]. apply (percent_at_sound _ _ H).
  - destruct (percent_at (String c s)) eqn:H.
    + intros [= <-]. apply (percent_at_sound _ _ H).
    + destruct (is_newline c); [discriminate|exact IH].
Qed.

Lemma progress_at_sound s n p :
  progress_at s = Some (n, p) ->
  all_digits n = true /\ is_empty n = false
  /\ all_digits p = true /\ is_empty p = false.
Proof.
  unfold progress_at. destruct (startswith "Animation " s); [|discriminate].
  pose proof (span_digits_all_digits (skip 10 s)) as Hd.
  destruct (span_digits (skip 10 s)) as [d r]. cbn [fst] in Hd.
  destruct (is_empty d) eqn:He; [discriminate|].
  destruct r as [|c r]; [discriminate|].
  destruct (Ascii.eqb_spec c ":"%char) as [->|Hc].
  - destruct (lazy_percent r) as [p'|] eqn:Hp; [|discriminate].
    intros [= <- <-]. destruct (lazy_percent_sound _ _ Hp). auto.
  - intros H. exfalso. revert H.
    destruct c as [[] [] [] [] [] [] [] []]; try discriminate.
    congruence.
Qed.

Lemma re_match_progress_cons c s :
  re_match_progress (String c s)
  = match progress_at (String c s) with
    | Some _ => true
    | None => if is_newline c then false else re_match_progress s
    end.
Proof. reflexivity. Qed.

Lemma re_search_progress_cons c s :
  re_search_progress (String c s)
  = match progress_at (String c s) with
    | Some g => Some g
    | None => re_search_progress s
    end.
Proof. reflexivity. Qed.

(** when [re.match] accepts the line, [re.search] finds a match in it *)
Lemma re_match_progress_search s :
  re_match_progress s = true ->
  exists n p, re_search_progress s = Some (n, p)
              /\ all_digits n = true /\ is_empty n = false
              /\ all_digits p = true /\ is_empty p = false.
Proof.
  induction s as [|c s IH].
  - discriminate.
  - rewrite re_match_progress_cons, re_search_progress_cons.
    destruct (progress_at (String c s)) as [[n p]|] eqn:Hat.
    + intros _. exists n, p. split; [reflexivity|].
      apply (progress_at_sound _ _ _ Hat).
    + destruct (is_newline c); [discriminate|exact IH].
Qed.




Lemma animation_not_error x : is_error ("Animation " +:+ x) = false.
Proof. reflexivity. Qed.

End ClassifierMore.



(** X10.  Rule 2 always reports: for a line that rule 1 does not take and
    that [re.match] accepts, [re.search] finds a match too, so the
    message is [Animation n progress: p%] with [n] and [p] runs of
    digits, neither empty. *)
Theorem progress_line_always_reports (line : string) :
  cond_partial line = false ->
  cond_progress line = true ->
  exists n p,
    all_digits n = true /\ is_empty n = false
    /\ all_digits p = true /\ is_empty p = false
    /\ extract_log line
       = Return (Some ("Animation " +:+ n +:+ " progress: " +:+ p +:+ "%")).
Proof.
  intros H1 H2. unfold extract_log, extract_log_body. rewrite H1, H2.
  destruct (re_match_progress_search line H2) as (n & p & -> & Hn).
  exists n, p. simpl. tauto.
Qed.

Lemma progress_line_always_reports_witness :
  exists n p,
    all_digits n = true /\ is_empty n = false
    /\ all_digits p = true /\ is_empty p = false
    /\ extract_log "x Animation 12:  7%| 3/40"
       = Return (Some ("Animation " +:+ n +:+ " progress: " +:+ p +:+ "%")).
Proof.
  apply (progress_line_always_reports "x Animation 12:  7%| 3/40"); reflexivity.
Defined.



(** X12.  Only rule 5 can give a message that closes a stream: when the
    classifier returns a terminal message, the line contains [Played],
    the message is the line, trimmed, and it begins with [error:]; the
    messages of the other rules are never terminal. *)
Theorem only_played_line_is_terminal (line m : string) :
  extract_log line = Return (Some m) ->
  is_terminal m = true ->
  cond_played line = true /\ m = strip line /\ is_error m = true.
Proof.
  unfold extract_log, extract_log_body, try_except, is_terminal.
  destruct (cond_partial line).
  { destruct (re_search_animation line); intros H; [|discriminate H].
    injection H as <-.
    rewrite animation_not_completion, animation_not_error. discriminate. }
  destruct (cond_progress line).
  { destruct (re_search_progress line) as [[n p]|]; intros H;
      [|discriminate H]. injection H as <-.
    rewrite animation_not_completion, animation_not_error. discriminate. }
  destruct (cond_file_ready line); [intros [= <-]; discriminate|].
  destruct (cond_rendered line); [intros [= <-]; discriminate|].
  destruct (cond_played line) eqn:Hplayed.
  { intros [= <-]. rewrite (played_not_completion line Hplayed). simpl.
    intros He. auto. }
  destruct (cond_error line); intros H; [|discriminate H].
  injection H as <-. discriminate.
Qed.

Lemma only_played_line_is_terminal_witness :
  cond_played "Error: Played 2 animations" = true
  /\ "Error: Played 2 animations" = strip "Error: Played 2 animations"
  /\ is_error "Error: Played 2 animations" = true.
Proof.
  apply (only_played_line_is_terminal "Error: Played 2 animations");
    reflexivity.
Defined.



(** ** What a job does, path by path *)

Section JobFacts.

Implicit Types (s : state) (id msg : string) (q : nat) (w : world).

Lemma outcome_procs_bind {A B} id (m : M A) (k : A -> M B) a ms p
    (Q : result B -> list (list string) -> Prop) :
  emits id m (Return a) ms p ->
  outcome_procs id (k a) (fun r p' => Q r (p ++ p')) ->
  outcome_procs id (bind m k) Q.
Proof.
  intros Hm (r & ms' & p' & Hk & HQ). exists r, (ms ++ ms'), (p ++ p').
  split; [eapply emits_bind_return; eassumption|exact HQ].
Qed.

Lemma outcome_procs_bind_raise {A B} id (m : M A) (k : A -> M B) e ms p
    (Q : result B -> list (list string) -> Prop) :
  emits id m (Raise e) ms p -> Q (Raise e) p -> outcome_procs id (bind m k) Q.
Proof.
  intros Hm HQ. exists (Raise e), ms, p.
  split; [apply emits_bind_raise, Hm|exact HQ].
Qed.

Lemma outcome_procs_leaf {A} id (m : M A) r ms p
    (Q : result A -> list (list string) -> Prop) :
  emits id m r ms p -> Q r p -> outcome_procs id m Q.
Proof. intros Hm HQ. exists r, ms, p. split; assumption. Qed.

Lemma env_write w path text e :
  write_text w path text = Raise e -> from_environment w e.
Proof. intros H. right. right. left. eauto. Qed.

Lemma env_makedirs w path e : makedirs w path = Raise e -> from_environment w e.
Proof. intros H. do 3 right. left. eauto. Qed.

Lemma env_spawn w cmd cwd e :
  create_subprocess_exec w cmd cwd = Raise e -> from_environment w e.
Proof. intros H. do 4 right. left. eauto. Qed.

Lemma env_output w cmd cwd p e :
  create_subprocess_exec w cmd cwd = Return p -> In (Raise e) (stdout p) ->
  from_environment w e.
Proof. intros H Hin. do 5 right. left. eauto. Qed.

Lemma env_listdir w path e : listdir w path = Raise e -> from_environment w e.
Proof. intros H. do 6 right. left. eauto. Qed.

Lemma env_open w path e : open_rb w path = Raise e -> from_environment w e.
Proof. intros H. do 7 right. left. eauto. Qed.

Lemma env_post w u e : requests_post w u = Raise e -> from_environment w e.
Proof. intros H. do 8 right. eauto. Qed.

Lemma output_result_raise lines e :
  output_result lines = Raise e -> In (Raise e) lines.
Proof.
  induction lines as [|[raw|e'] rest IH]; simpl; [discriminate| |].
  - intros H. right. exact (IH H).
  - intros [= <-]. left. reflexivity.
Qed.

Lemma upload_returns cfg w file_path filename u :
  upload_to_supabase cfg w file_path filename = Return u ->
  path_exists w file_path = true
  /\ open_rb w file_path = Return tt
  /\ requests_post w (upload_url cfg filename) = Return tt
  /\ u = public_url cfg filename.
Proof.
  unfold upload_to_supabase, try_except, upload_url, public_url.
  destruct (path_exists w file_path); cbn [negb]; [|discriminate].
  destruct (open_rb w file_path) as [[]|e]; [|discriminate].
  destruct (requests_post w _) as [[]|e]; [|discriminate].
  intros [= <-]. auto.
Qed.

Lemma upload_raises cfg w id file_path filename e :
  upload_to_supabase cfg w file_path filename = Raise e ->
  from_environment w e \/ from_job w id e.
Proof.
  unfold upload_to_supabase, try_except.
  destruct (path_exists w file_path) eqn:Hex; cbn [negb].
  - destruct (open_rb w file_path) as [[]|e'] eqn:Hopen.
    + destruct (requests_post w _) as [[]|e'] eqn:Hpost; [discriminate|].
      intros [= <-]. left. eapply env_post, Hpost.
    + intros [= <-]. left. eapply env_open, Hopen.
  - intros [= <-]. right. right. right. eauto.
Qed.

Lemma no_video_file_facts id w tmp_dir media_dir
    (Q : result string -> list (list string) -> Prop) :
  (forall e path, listdir w path = Raise e -> Q (Raise e) []) ->
  Q (Raise (FileNotFoundError "No video file was generated")) [] ->
  outcome_procs id (no_video_file w tmp_dir media_dir) Q.
Proof.
  intros Henv Hown. unfold no_video_file.
  destruct (listdir w tmp_dir) as [l|e] eqn:Hl.
  2: { eapply outcome_procs_bind_raise; [apply emits_lift|].
       apply (Henv e tmp_dir Hl). }
  eapply outcome_procs_bind; [apply emits_lift|]. cbv beta.
  destruct (path_exists w media_dir).
  - destruct (listdir w media_dir) as [l'|e] eqn:Hl'.
    + eapply outcome_procs_bind.
      { apply (emits_bind_return id _ _ l' _ [] [] [] []);
          [apply emits_lift|apply emits_ret]. }
      eapply outcome_procs_leaf; [apply emits_raise|exact Hown].
    + eapply outcome_procs_bind_raise;
        [apply emits_bind_raise, emits_lift|].
      apply (Henv e media_dir Hl').
  - eapply outcome_procs_bind; [apply emits_ret|].
    eapply outcome_procs_leaf; [apply emits_raise|exact Hown].
Qed.

Lemma render_and_upload_facts cfg w id code jd tmp_dir :
  outcome_procs id (render_and_upload cfg w id code jd tmp_dir)
    (block_facts cfg w id code tmp_dir).
Proof.
  unfold render_and_upload. cbv beta zeta.
  destruct (write_text w _ code) as [[]|e] eqn:Hwrite.
  2: { eapply outcome_procs_bind_raise; [apply emits_lift|].
       split; [left; reflexivity|left; eapply env_write, Hwrite]. }
  eapply outcome_procs_bind; [apply emits_lift|]. cbv beta zeta.
  destruct (makedirs w _) as [[]|e] eqn:Hmakedirs.
  2: { eapply outcome_procs_bind_raise; [apply emits_lift|].
       split; [left; reflexivity|left; eapply env_makedirs, Hmakedirs]. }
  eapply outcome_procs_bind; [apply emits_lift|]. cbv beta zeta.
  eapply outcome_procs_bind; [apply emits_publish|]. cbv beta zeta.
  match goal with
  | |- context [start_process w ?cmd ?cwd] =>
      destruct (create_subprocess_exec w cmd cwd) as [proc|e] eqn:Hsp
  end.
  2: { eapply outcome_procs_bind_raise;
         [apply emits_start_process_raise, Hsp|].
       split; [left; reflexivity|left; eapply env_spawn, Hsp]. }
  eapply outcome_procs_bind; [apply emits_start_process_return, Hsp|].
  cbv beta zeta.
  pose proof (emits_read_output id (stdout proc)) as Hread.
  destruct (output_result (stdout proc)) as [[]|e] eqn:Hout.
  2: { eapply outcome_procs_bind_raise; [exact Hread|].
       split; [right; reflexivity|].
       left. eapply env_output; [exact Hsp|]. apply output_result_raise, Hout. }
  eapply outcome_procs_bind; [exact Hread|]. cbv beta zeta.
  destruct (negb (returncode proc =? 0)%Z) eqn:Hrc.
  { eapply outcome_procs_leaf; [apply emits_raise|].
    split; [right; reflexivity|]. right. left. exists tmp_dir, proc.
    split; [exact Hsp|]. split; [|reflexivity].
    apply negb_true_iff, Z.eqb_neq in Hrc. exact Hrc. }
  apply negb_false_iff, Z.eqb_eq in Hrc.
  destruct (find_video_files w tmp_dir _ id) as [|video others] eqn:Hfind.
  { apply no_video_file_facts.
    - intros e path H. split; [right; reflexivity|].
      left. eapply env_listdir, H.
    - split; [right; reflexivity|]. right. right. left. exists tmp_dir.
      split; [exact Hfind|reflexivity]. }
  eapply outcome_procs_bind; [apply emits_publish|]. cbv beta zeta.
  destruct (upload_to_supabase cfg w video _) as [video_url|e] eqn:Hup.
  2: { eapply outcome_procs_bind_raise; [apply emits_lift|].
       split; [right; reflexivity|]. eapply upload_raises, Hup. }
  eapply outcome_procs_bind; [apply emits_lift|]. cbv beta zeta.
  eapply outcome_procs_bind; [apply emits_publish|]. cbv beta zeta.
  eapply outcome_procs_bind; [apply emits_notify_spring|]. cbv beta zeta.
  eapply outcome_procs_leaf; [apply emits_ret|].
  destruct (upload_returns _ _ _ _ _ Hup) as (Hex & Hopen & Hpost & Hurl).
  split; [reflexivity|]. exists proc, video, others.
  repeat (split; [assumption|]). exact Hurl.
Qed.

Lemma run_and_upload_facts cfg w id code jd :
  outcome_procs id (run_and_upload cfg w id code jd) (job_facts cfg w id code).
Proof.
  assert (Hhandler : forall e,
    emits id (effect (publish id ("Error: " +:+ str w e)) ;;; @raise string e)
      (Raise e) ["Error: " +:+ str w e] []).
  { intros e. apply (emits_bind_return id _ _ tt _ [_] [] [] []);
      [apply emits_publish|apply emits_raise]. }
  unfold run_and_upload, run_and_upload_body, with_temporary_directory.
  destruct (mkdtemp w) as [tmp_dir|e] eqn:Hmk.
  { destruct (render_and_upload_facts cfg w id code jd tmp_dir)
      as (r & msgs & procs & Hblock & Hfacts).
    destruct (cleanup w tmp_dir) as [[]|e] eqn:Hclean.
    - assert (Hbody : emits id
        (tmp <- lift (Return tmp_dir) ;;
         (fun s => let '(r0, s1) := render_and_upload cfg w id code jd tmp s in
                   match cleanup w tmp with
                   | Return _ => (r0, s1)
                   | Raise e => (Raise e, s1)
                   end)) r msgs procs).
      { intros s. unfold bind, lift. rewrite Hblock, Hclean. reflexivity. }
      destruct r as [url|e].
      + exists (Return url), msgs, procs.
        split; [apply emits_try_return, Hbody|].
        exists tmp_dir. split; [exact Hmk|]. split; [exact Hclean|exact Hfacts].
      + exists (Raise e), (msgs ++ ["Error: " +:+ str w e]), (procs ++ []).
        split; [eapply emits_try_raise; [exact Hbody|apply Hhandler]|].
        rewrite app_nil_r. destruct Hfacts as [[->| ->] Horigin].
        * split; [left; reflexivity|exact Horigin].
        * split; [right; exists tmp_dir; split; [exact Hmk|reflexivity]|exact Horigin].
    - assert (Hbody : emits id
        (tmp <- lift (Return tmp_dir) ;;
         (fun s => let '(r0, s1) := render_and_upload cfg w id code jd tmp s in
                   match cleanup w tmp with
                   | Return _ => (r0, s1)
                   | Raise e => (Raise e, s1)
                   end)) (Raise e) msgs procs).
      { intros s. unfold bind, lift. rewrite Hblock, Hclean. reflexivity. }
      exists (Raise e), (msgs ++ ["Error: " +:+ str w e]), (procs ++ []).
      split; [eapply emits_try_raise; [exact Hbody|apply Hhandler]|].
      rewrite app_nil_r. split.
      + destruct r as [url|e0].
        * destruct Hfacts as [-> _]. right. exists tmp_dir. split; [exact Hmk|reflexivity].
        * destruct Hfacts as [[->| ->] _];
            [left; reflexivity|right; exists tmp_dir; split; [exact Hmk|reflexivity]].
      + left. right. left. eauto. }
  exists (Raise e), ([] ++ ["Error: " +:+ str w e]), ([] ++ []).
  split.
  - eapply emits_try_raise; [apply emits_bind_raise, emits_lift|apply Hhandler].
  - split; [left; reflexivity|]. left. left. exact Hmk.
Qed.

Lemma run_and_upload_facts_at cfg w id code jd s r s' :
  run_and_upload cfg w id code jd s = (r, s') ->
  exists procs, job_facts cfg w id code r procs
                /\ spawned s' = spawned s ++ procs.
Proof.
  intros Hrun.
  destruct (run_and_upload_facts cfg w id code jd)
    as (r0 & msgs & procs & Hemits & Hfacts).
  rewrite Hemits in Hrun. injection Hrun as <- <-.
  exists procs. split; [exact Hfacts|].
  simpl. rewrite publish_all_spawned. reflexivity.
Qed.

End JobFacts.

Section JobPaths.

Implicit Types (s : state) (id msg : string) (q : nat) (w : world).

Lemma emits_with_temporary_directory {A} id w (block : string -> M A)
    tmp_dir r ms p :
  mkdtemp w = Return tmp_dir ->
  cleanup w tmp_dir = Return tt ->
  emits id (block tmp_dir) r ms p ->
  emits id (with_temporary_directory w block) r ms p.
Proof.
  intros Hmk Hclean Hblock s. unfold with_temporary_directory, bind, lift.
  rewrite Hmk. cbv beta iota. rewrite Hblock, Hclean. reflexivity.
Qed.

Lemma emits_block_nonzero_exit cfg w id code jd tmp_dir p :
  write_text w (py_path_of tmp_dir id) code = Return tt ->
  makedirs w (media_dir_of tmp_dir) = Return tt ->
  create_subprocess_exec w (job_cmd tmp_dir id) tmp_dir = Return p ->
  output_result (stdout p) = Return tt ->
  returncode p <> 0%Z ->
  emits id (render_and_upload cfg w id code jd tmp_dir)
    (Raise (CalledProcessError (returncode p) (job_cmd tmp_dir id)))
    ("Starting video generation..." :: output_messages (stdout p))
    [job_cmd tmp_dir id].
Proof.
  intros Hwrite Hmakedirs Hsp Hout Hrc.
  unfold py_path_of, media_dir_of, job_cmd in *.
  unfold render_and_upload. cbv zeta.
  rewrite Hwrite, Hmakedirs.
  set (out := output_messages (stdout p)).
  apply (emits_bind_return id _ _ tt _ []
           ("Starting video generation..." :: out) [] [_]);
    [apply emits_lift|].
  apply (emits_bind_return id _ _ tt _ []
           ("Starting video generation..." :: out) [] [_]);
    [apply emits_lift|].
  apply (emits_bind_return id _ _ tt _ ["Starting video generation..."]
           out [] [_]);
    [apply emits_publish|].
  apply (emits_bind_return id _ _ p _ [] out [_] []);
    [apply emits_start_process_return, Hsp|].
  pose proof (emits_read_output id (stdout p)) as Hread. rewrite Hout in Hread.
  rewrite <- (app_nil_r out).
  apply (emits_bind_return id _ _ tt _ out [] [] []); [exact Hread|].
  apply Z.eqb_neq in Hrc. rewrite Hrc. cbn [negb]. apply emits_raise.
Qed.

Lemma bind_ext {A B} (m : M A) (k1 k2 : A -> M B) s :
  (forall a s1, k1 a s1 = k2 a s1) -> bind m k1 s = bind m k2 s.
Proof.
  intros H. unfold bind. destruct (m s) as [[a|e] s1]; [apply H|reflexivity].
Qed.

Lemma notify_spring_noop cfg w cid video_url s :
  notify_spring cfg w cid video_url s = (Return tt, s).
Proof.
  rewrite (emits_notify_spring cid cfg w cid video_url s). simpl.
  rewrite with_spawned_nil. reflexivity.
Qed.

Lemma first_existing_none w locations :
  first_existing w locations = []
  <-> Forall (fun l => path_exists w l = false) locations.
Proof.
  induction locations as [|l rest IH]; simpl.
  - split; [intros _; apply List.Forall_nil|reflexivity].
  - destruct (path_exists w l) eqn:Hl.
    + split; [discriminate|]. intros H. inversion H; congruence.
    + rewrite IH. split.
      * intros H. apply List.Forall_cons; assumption.
      * intros H. inversion H; assumption.
Qed.

Lemma first_existing_some w locations video others :
  first_existing w locations = video :: others ->
  others = []
  /\ exists before after,
       locations = before ++ video :: after
       /\ Forall (fun l => path_exists w l = false) before
       /\ path_exists w video = true.
Proof.
  induction locations as [|l rest IH]; simpl; [discriminate|].
  destruct (path_exists w l) eqn:Hl.
  - intros [= <- <-]. split; [reflexivity|]. exists [], rest.
    split; [reflexivity|]. split; [apply List.Forall_nil|exact Hl].
  - intros H. destruct (IH H) as (Ho & before & after & -> & Hb & Hv).
    split; [exact Ho|]. exists (l :: before), after.
    split; [reflexivity|]. split; [|exact Hv].
    apply List.Forall_cons; assumption.
Qed.

End JobPaths.

(** X14.  A job returns only when everything went well, and then with one
    address: the scratch directory was made and removed, the command of
    the job was started in it and was the one process started, every
    line of its output was decoded, its exit code was 0, the search
    found a video, that file existed and was posted, and the result is
    the public address of [<id>.mp4] in the bucket, whatever the name and
    place of the file that was found. *)
Theorem returned_job_facts (cfg : config) (w : world) (id code : string)
    (jd : list (string * json)) (s s' : state) (url : string) :
  run_and_upload cfg w id code jd s = (Return url, s') ->
  url = public_url cfg (id +:+ ".mp4")
  /\ exists tmp_dir p video others,
       mkdtemp w = Return tmp_dir
       /\ create_subprocess_exec w (job_cmd tmp_dir id) tmp_dir = Return p
       /\ output_result (stdout p) = Return tt
       /\ returncode p = 0%Z
       /\ find_video_files w tmp_dir (media_dir_of tmp_dir) id = video :: others
       /\ path_exists w video = true
       /\ requests_post w (upload_url cfg (id +:+ ".mp4")) = Return tt
       /\ cleanup w tmp_dir = Return tt
       /\ spawned s' = spawned s ++ [job_cmd tmp_dir id].
Proof.
  intros Hrun.
  destruct (run_and_upload_facts_at _ _ _ _ _ _ _ _ Hrun)
    as (procs & (tmp_dir & Hmk & Hclean & -> & p & video & others & H) & Hsp).
  destruct H as (_ & _ & H3 & H4 & H5 & H6 & H7 & _ & H9 & ->).
  split; [reflexivity|]. exists tmp_dir, p, video, others.
  repeat (split; [assumption|]). exact Hsp.
Qed.

Lemma returned_job_facts_witness :
  "https://storage.example/storage/v1/object/public/videos/job-1.mp4"
  = public_url Sample.cfg ("job-1" +:+ ".mp4").
Proof.
  apply (returned_job_facts Sample.cfg (Sample.world_of [] 0) "job-1"
           "print(1)" [] Sample.listening
           (snd (run_and_upload Sample.cfg (Sample.world_of [] 0) "job-1"
                   "print(1)" [] Sample.listening))).
  reflexivity.
Defined.

(** X15.  Every exception a job raises is either one that a call to its
    environment raised (the scratch directory, the script, the
    subprocess and its output, the directory listings, the video file,
    the upload), or one of its own three: [CalledProcessError] with the
    exit code of the process, which is then not 0, [FileNotFoundError]
    for no video when the search found none, or [FileNotFoundError] for a
    file that does not exist.  A failure of the call-back is never among
    them.  And a job that raises has started the command of the job or
    no process at all. *)
Theorem raised_job_exception_origin (cfg : config) (w : world)
    (id code : string) (jd : list (string * json)) (s s' : state) (e : exn) :
  run_and_upload cfg w id code jd s = (Raise e, s') ->
  (from_environment w e \/ from_job w id e)
  /\ (spawned s' = spawned s
      \/ exists tmp_dir,
           mkdtemp w = Return tmp_dir
           /\ spawned s' = spawned s ++ [job_cmd tmp_dir id]).
Proof.
  intros Hrun.
  destruct (run_and_upload_facts_at _ _ _ _ _ _ _ _ Hrun)
    as (procs & (Hprocs & Horigin) & Hsp).
  split; [exact Horigin|]. rewrite Hsp.
  destruct Hprocs as [->|(tmp_dir & Hmk & ->)].
  - left. apply app_nil_r.
  - right. exists tmp_dir. split; [exact Hmk|reflexivity].
Qed.

Lemma raised_job_exception_origin_witness :
  (from_environment (Sample.world_of [] 2)
     (CalledProcessError 2 (job_cmd "/tmp/job" "job-1"))
   \/ from_job (Sample.world_of [] 2) "job-1"
        (CalledProcessError 2 (job_cmd "/tmp/job" "job-1")))
  /\ (spawned (snd (run_and_upload Sample.cfg (Sample.world_of [] 2) "job-1"
                      "print(1)" [] Sample.listening))
      = spawned Sample.listening
      \/ exists tmp_dir,
           mkdtemp (Sample.world_of [] 2) = Return tmp_dir
           /\ spawned (snd (run_and_upload Sample.cfg (Sample.world_of [] 2)
                              "job-1" "print(1)" [] Sample.listening))
              = spawned Sample.listening ++ [job_cmd tmp_dir "job-1"]).
Proof.
  apply (raised_job_exception_origin Sample.cfg (Sample.world_of [] 2)
           "job-1" "print(1)" [] Sample.listening).
  reflexivity.
Defined.

(** X16.  A process that exits with a code other than 0 fails the job.
    Assume that the scratch directory is created, the script is written,
    the media directory is made, the process is started, every line of
    its output is decoded, its exit code is not 0, the removal of the
    scratch directory on leaving the block succeeds, and a queue is
    registered for the id.  Then the job raises [CalledProcessError] with
    that code and the command; the queue receives the start notice, the
    progress messages and [Error: ] followed by the text of that
    exception, with no upload notice; and the command is the one process
    started.  (When the removal fails, the job raises the exception of
    the removal instead; that case is not covered here.) *)
Theorem nonzero_exit_fails_job (cfg : config) (w : world) (id code : string)
    (jd : list (string * json)) (s : state) (tmp_dir : string) (p : process)
    (q : nat) (old : list string) :
  mkdtemp w = Return tmp_dir ->
  write_text w (py_path_of tmp_dir id) code = Return tt ->
  makedirs w (media_dir_of tmp_dir) = Return tt ->
  create_subprocess_exec w (job_cmd tmp_dir id) tmp_dir = Return p ->
  output_result (stdout p) = Return tt ->
  returncode p <> 0%Z ->
  cleanup w tmp_dir = Return tt ->
  subscribers s !! id = Some q ->
  queues s !! q = Some old ->
  let e := CalledProcessError (returncode p) (job_cmd tmp_dir id) in
  let out := run_and_upload cfg w id code jd s in
  fst out = Raise e
  /\ queues (snd out) !! q
     = Some (old ++ ["Starting video generation..."]
             ++ output_messages (stdout p) ++ ["Error: " +:+ str w e])
  /\ spawned (snd out) = spawned s ++ [job_cmd tmp_dir id].
Proof.
  intros Hmk Hwrite Hmakedirs Hsp Hout Hrc Hclean Hs Hq e out.
  assert (Hemits : emits id (run_and_upload cfg w id code jd) (Raise e)
            (("Starting video generation..." :: output_messages (stdout p))
             ++ ["Error: " +:+ str w e])
            ([job_cmd tmp_dir id] ++ [])).
  { unfold run_and_upload, run_and_upload_body.
    eapply emits_try_raise.
    - apply (emits_with_temporary_directory id w _ tmp_dir); try assumption.
      apply emits_block_nonzero_exit; assumption.
    - apply (emits_bind_return id _ _ tt _ [_] [] [] []);
        [apply emits_publish|apply emits_raise]. }
  split; [apply (emits_result id _ _ _ _ s Hemits)|]. split.
  - unfold out. rewrite (emits_queue id _ _ _ _ s q old Hemits Hs Hq).
    reflexivity.
  - unfold out. rewrite Hemits. cbn [snd with_spawned spawned].
    rewrite publish_all_spawned. reflexivity.
Qed.

Lemma nonzero_exit_fails_job_witness :
  fst (run_and_upload Sample.cfg (Sample.world_of [Return "Played 1"] 2)
         "job-1" "print(1)" [] Sample.listening)
  = Raise (CalledProcessError 2 (job_cmd "/tmp/job" "job-1")).
Proof.
  apply (nonzero_exit_fails_job Sample.cfg
           (Sample.world_of [Return "Played 1"] 2) "job-1" "print(1)" []
           Sample.listening "/tmp/job" (Process [Return "Played 1"] 2)
           0%nat []);
    try reflexivity.
  discriminate.
Defined.

(** X17.  The search for the video.  It finds nothing exactly when the
    walk of the media directory meets no [.mp4] file and none of the five
    fall-back locations exists.  What it finds is what the walk met, in
    the order of the walk, whenever the walk met something; only
    otherwise is it one fall-back location alone: the first in the list
    that exists. *)
Theorem video_search_order (w : world) (tmp_dir media_dir id : string) :
  (find_video_files w tmp_dir media_dir id = []
   <-> walk_mp4 w media_dir = []
       /\ Forall (fun l => path_exists w l = false) (alt_locations tmp_dir id))
  /\ (forall video others,
         find_video_files w tmp_dir media_dir id = video :: others ->
         walk_mp4 w media_dir = video :: others
         \/ (walk_mp4 w media_dir = [] /\ others = []
             /\ exists before after,
                  alt_locations tmp_dir id = before ++ video :: after
                  /\ Forall (fun l => path_exists w l = false) before
                  /\ path_exists w video = true)).
Proof.
  unfold find_video_files. destruct (walk_mp4 w media_dir) as [|v o] eqn:Hwalk.
  - split.
    + rewrite first_existing_none. tauto.
    + intros video others H. right.
      destruct (first_existing_some _ _ _ _ H) as (Ho & Hrest).
      split; [reflexivity|]. split; assumption.
  - split.
    + split; [discriminate|]. intros [H _]. discriminate H.
    + intros video others H. left. exact H.
Qed.

Lemma video_search_order_witness :
  walk_mp4 (Sample.world_of [] 0) "/tmp/job/media"
  = "/tmp/job/media/videos/scene.mp4" :: []
  \/ (walk_mp4 (Sample.world_of [] 0) "/tmp/job/media" = []
      /\ @nil string = []
      /\ exists before after,
           alt_locations "/tmp/job" "job-1"
           = before ++ "/tmp/job/media/videos/scene.mp4" :: after
           /\ Forall (fun l => path_exists (Sample.world_of [] 0) l = false) before
           /\ path_exists (Sample.world_of [] 0)
                "/tmp/job/media/videos/scene.mp4" = true).
Proof.
  apply (video_search_order (Sample.world_of [] 0) "/tmp/job"
           "/tmp/job/media" "job-1").
  reflexivity.
Defined.

(** X18.  The call-back never matters to the job: with any call-back
    address, set or not, and any answer or failure of the call-back
    request, a job gives the same result and leaves the same store. *)
Theorem callback_never_matters (cfg : config) (w : world)
    (u : option string) (f : string -> string -> string -> result unit)
    (id code : string) (jd : list (string * json)) (s : state) :
  run_and_upload (with_callback_url u cfg) (with_requests_post_json f w)
    id code jd s
  = run_and_upload cfg w id code jd s.
Proof.
  assert (Hblock : forall tmp_dir s0,
    render_and_upload (with_callback_url u cfg) (with_requests_post_json f w)
      id code jd tmp_dir s0
    = render_and_upload cfg w id code jd tmp_dir s0).
  { intros tmp_dir s0. unfold render_and_upload. cbv zeta.
    apply bind_ext; intros _ s1.
    apply bind_ext; intros _ s2.
    apply bind_ext; intros _ s3.
    apply bind_ext; intros proc s4.
    apply bind_ext; intros _ s5.
    destruct (negb (returncode proc =? 0)%Z); [reflexivity|].
    change (find_video_files (with_requests_post_json f w))
      with (find_video_files w).
    destruct (find_video_files w tmp_dir _ id) as [|video others];
      [reflexivity|].
    apply bind_ext; intros _ s6.
    apply bind_ext; intros video_url s7.
    apply bind_ext; intros _ s8.
    unfold bind. rewrite !notify_spring_noop. reflexivity. }
  unfold run_and_upload, try_exceptM, run_and_upload_body,
    with_temporary_directory, bind, lift.
  change (mkdtemp (with_requests_post_json f w)) with (mkdtemp w).
  destruct (mkdtemp w) as [tmp_dir|e]; [|reflexivity].
  rewrite Hblock. reflexivity.
Qed.

(** X19.  What the submit endpoint tells of a failed job is what the
    stream tells.  For a request with an id and a code, when the job
    raises an exception, the endpoint raises [HTTPException] with status
    500 and the text of that exception as its detail, and the last
    message put on the queue registered for the id is [Error: ] followed
    by the same text. *)
Theorem failed_submit_detail_is_stream_error (cfg : config) (w : world)
    (req : RunRequest) (s s' : state) (q : nat) (old : list string) (e : exn) :
  is_empty (conversation_id req) = false ->
  is_empty (code req) = false ->
  subscribers s !! conversation_id req = Some q ->
  queues s !! q = Some old ->
  run cfg w req s = (Raise e, s') ->
  exists e0 pre,
    fst (run_and_upload cfg w (conversation_id req) (code req) (json_data req) s)
    = Raise e0
    /\ e = HTTPException 500 (str w e0)
    /\ queues s' !! q = Some (old ++ pre ++ ["Error: " +:+ str w e0]).
Proof.
  intros Hid Hcode Hs Hq. unfold run, try_exceptM, bind, raise, ret.
  rewrite Hid, Hcode. cbn [orb].
  destruct (run_and_upload_outcome cfg w (conversation_id req) (code req)
              (json_data req)) as (r0 & msgs & procs & Hemits & Hshape).
  pose proof (emits_queue _ _ _ _ _ s q old Hemits Hs Hq) as Hq'.
  rewrite Hemits in *. cbn [fst snd] in *.
  destruct r0 as [url|e0]; [discriminate|].
  intros [= <- <-]. destruct Hshape as (pre & -> & _).
  exists e0, pre. split; [rewrite Hemits; reflexivity|].
  split; [reflexivity|exact Hq'].
Qed.

Lemma failed_submit_detail_is_stream_error_witness :
  exists e0 pre,
    fst (run_and_upload Sample.cfg (Sample.world_of [] 2) "job-1" "print(1)"
           [] Sample.listening)
    = Raise e0
    /\ HTTPException 500 "Command returned non-zero exit status"
       = HTTPException 500 (str (Sample.world_of [] 2) e0)
    /\ queues (snd (run Sample.cfg (Sample.world_of [] 2)
                      {| conversation_id := "job-1"; code := "print(1)";
                         json_data := [] |} Sample.listening)) !! 0%nat
       = Some ([] ++ pre ++ ["Error: " +:+ str (Sample.world_of [] 2) e0]).
Proof.
  apply (failed_submit_detail_is_stream_error Sample.cfg
           (Sample.world_of [] 2)
           {| conversation_id := "job-1"; code := "print(1)"; json_data := [] |}
           Sample.listening _ 0%nat []);
    reflexivity.
Defined.

(** X20.  The submit endpoint returns only for a request with an id and a
    code whose job returned; its answer then has the status [success],
    the id of the request, and the public address of [<id>.mp4]. *)
Theorem successful_submit_answer (cfg : config) (w : world) (req : RunRequest)
    (s s' : state) (resp : RunResponse) :
  run cfg w req s = (Return resp, s') ->
  is_empty (conversation_id req) = false
  /\ is_empty (code req) = false
  /\ run_and_upload cfg w (conversation_id req) (code req) (json_data req) s
     = (Return (url resp), s')
  /\ status resp = "success"
  /\ response_conversation_id resp = conversation_id req
  /\ url resp = public_url cfg (conversation_id req +:+ ".mp4").
Proof.
  unfold run, try_exceptM, bind, raise, ret.
  destruct (is_empty (conversation_id req)) eqn:Hid; [discriminate|].
  destruct (is_empty (code req)) eqn:Hcode; [discriminate|]. cbn [orb].
  destruct (run_and_upload cfg w (conversation_id req) (code req)
              (json_data req) s) as [[u|e] s1] eqn:Hrun; [|discriminate].
  intros [= <- <-]. cbn [url status response_conversation_id].
  repeat (split; [reflexivity|]).
  destruct (run_and_upload_facts_at _ _ _ _ _ _ _ _ Hrun)
    as (procs & (tmp_dir & _ & _ & _ & p & video & others & H) & _).
  destruct H as (_ & _ & _ & _ & _ & _ & _ & _ & _ & ->). reflexivity.
Qed.

Lemma successful_submit_answer_witness :
  status {| status := "success";
            url := "https://storage.example/storage/v1/object/public/videos/job-1.mp4";
            response_conversation_id := "job-1" |} = "success".
Proof.
  apply (successful_submit_answer Sample.cfg (Sample.world_of [] 0)
           {| conversation_id := "job-1"; code := "print(1)"; json_data := [] |}
           Sample.listening
           (snd (run Sample.cfg (Sample.world_of [] 0)
                   {| conversation_id := "job-1"; code := "print(1)";
                      json_data := [] |} Sample.listening))).
  reflexivity.
Defined.

Section MissingVideo.

Implicit Types (s : state) (id msg : string) (q : nat) (w : world).

Lemma emits_no_video_file id w tmp_dir media_dir l1 l2 :
  listdir w tmp_dir = Return l1 ->
  listdir w media_dir = Return l2 ->
  emits id (@no_video_file string w tmp_dir media_dir)
    (Raise (FileNotFoundError "No video file was generated")) [] [].
Proof.
  intros H1 H2 s. unfold no_video_file, bind, lift, ret, raise.
  rewrite H1. cbv beta iota.
  destruct (path_exists w media_dir); [rewrite H2|]; cbv beta iota;
    rewrite with_spawned_nil; reflexivity.
Qed.

Lemma emits_block_no_video cfg w id code jd tmp_dir p l1 l2 :
  write_text w (py_path_of tmp_dir id) code = Return tt ->
  makedirs w (media_dir_of tmp_dir) = Return tt ->
  create_subprocess_exec w (job_cmd tmp_dir id) tmp_dir = Return p ->
  output_result (stdout p) = Return tt ->
  returncode p = 0%Z ->
  find_video_files w tmp_dir (media_dir_of tmp_dir) id = [] ->
  listdir w tmp_dir = Return l1 ->
  listdir w (media_dir_of tmp_dir) = Return l2 ->
  emits id (render_and_upload cfg w id code jd tmp_dir)
    (Raise (FileNotFoundError "No video file was generated"))
    ("Starting video generation..." :: output_messages (stdout p))
    [job_cmd tmp_dir id].
Proof.
  intros Hwrite Hmakedirs Hsp Hout Hrc Hfind Hl1 Hl2.
  unfold py_path_of, media_dir_of, job_cmd in *.
  unfold render_and_upload. cbv zeta.
  rewrite Hwrite, Hmakedirs, Hfind.
  set (out := output_messages (stdout p)).
  apply (emits_bind_return id _ _ tt _ []
           ("Starting video generation..." :: out) [] [_]);
    [apply emits_lift|].
  apply (emits_bind_return id _ _ tt _ []
           ("Starting video generation..." :: out) [] [_]);
    [apply emits_lift|].
  apply (emits_bind_return id _ _ tt _ ["Starting video generation..."]
           out [] [_]);
    [apply emits_publish|].
  apply (emits_bind_return id _ _ p _ [] out [_] []);
    [apply emits_start_process_return, Hsp|].
  pose proof (emits_read_output id (stdout p)) as Hread. rewrite Hout in Hread.
  rewrite <- (app_nil_r out).
  apply (emits_bind_return id _ _ tt _ out [] [] []); [exact Hread|].
  rewrite Hrc. cbn [Z.eqb negb]. eapply emits_no_video_file; eassumption.
Qed.

End MissingVideo.

(** X21.  A render that leaves no video fails the job.  Assume that the
    scratch directory is created, the script is written, the media
    directory is made, the process is started, every line of its output
    is decoded, its exit code is 0, the search finds no file, the listing
    of the scratch directory and the listing of the media directory made
    for the log both succeed, the removal of the scratch directory on
    leaving the block succeeds, and a queue is registered for the id.
    Then the job raises [FileNotFoundError] with the text
    [No video file was generated], and the queue receives the start
    notice, the progress messages and
    [Error: No video file was generated], with no upload notice.  (When a
    listing or the removal fails, the job raises that exception instead;
    that case is not covered here.) *)
Theorem missing_video_fails_job (cfg : config) (w : world) (id code : string)
    (jd : list (string * json)) (s : state) (tmp_dir : string) (p : process)
    (l1 l2 : list string) (q : nat) (old : list string) :
  mkdtemp w = Return tmp_dir ->
  write_text w (py_path_of tmp_dir id) code = Return tt ->
  makedirs w (media_dir_of tmp_dir) = Return tt ->
  create_subprocess_exec w (job_cmd tmp_dir id) tmp_dir = Return p ->
  output_result (stdout p) = Return tt ->
  returncode p = 0%Z ->
  find_video_files w tmp_dir (media_dir_of tmp_dir) id = [] ->
  listdir w tmp_dir = Return l1 ->
  listdir w (media_dir_of tmp_dir) = Return l2 ->
  cleanup w tmp_dir = Return tt ->
  subscribers s !! id = Some q ->
  queues s !! q = Some old ->
  let out := run_and_upload cfg w id code jd s in
  fst out = Raise (FileNotFoundError "No video file was generated")
  /\ queues (snd out) !! q
     = Some (old ++ ["Starting video generation..."]
             ++ output_messages (stdout p)
             ++ ["Error: No video file was generated"]).
Proof.
  intros Hmk Hwrite Hmakedirs Hsp Hout Hrc Hfind Hl1 Hl2 Hclean Hs Hq out.
  assert (Hemits : emits id (run_and_upload cfg w id code jd)
            (Raise (FileNotFoundError "No video file was generated"))
            (("Starting video generation..." :: output_messages (stdout p))
             ++ ["Error: No video file was generated"])
            ([job_cmd tmp_dir id] ++ [])).
  { unfold run_and_upload, run_and_upload_body.
    eapply emits_try_raise.
    - apply (emits_with_temporary_directory id w _ tmp_dir); try assumption.
      eapply emits_block_no_video; eassumption.
    - apply (emits_bind_return id _ _ tt _ [_] [] [] []);
        [apply emits_publish|apply emits_raise]. }
  split; [apply (emits_result id _ _ _ _ s Hemits)|].
  unfold out. rewrite (emits_queue id _ _ _ _ s q old Hemits Hs Hq).
  reflexivity.
Qed.

Lemma missing_video_fails_job_witness :
  fst (run_and_upload Sample.cfg (Sample.without_video (Sample.world_of [] 0))
         "job-1" "print(1)" [] Sample.listening)
  = Raise (FileNotFoundError "No video file was generated").
Proof.
  apply (missing_video_fails_job Sample.cfg
           (Sample.without_video (Sample.world_of [] 0)) "job-1" "print(1)" []
           Sample.listening "/tmp/job" (Process [] 0) [] [] 0%nat []);
    reflexivity.
Defined.

(** X22.  The upload.  It returns exactly when the file exists, can be
    opened and the request succeeds, and then with the public address
    built from the file name alone, whatever the path of the file; a
    file that does not exist gives [FileNotFoundError] with the path in
    its text; and an exception of the opening or of the request comes
    out as it is. *)
Theorem upload_outcomes (cfg : config) (w : world) (file_path filename : string) :
  (forall u,
      upload_to_supabase cfg w file_path filename = Return u
      <-> path_exists w file_path = true
          /\ open_rb w file_path = Return tt
          /\ requests_post w (upload_url cfg filename) = Return tt
          /\ u = public_url cfg filename)
  /\ (path_exists w file_path = false ->
      upload_to_supabase cfg w file_path filename
      = Raise (FileNotFoundError ("File not found: " +:+ file_path)))
  /\ (forall e,
        upload_to_supabase cfg w file_path filename = Raise e ->
        path_exists w file_path = true ->
        open_rb w file_path = Raise e
        \/ (open_rb w file_path = Return tt
            /\ requests_post w (upload_url cfg filename) = Raise e)).
Proof.
  split; [|split].
  - intros u. split; [apply upload_returns|].
    intros (Hex & Hopen & Hpost & ->).
    unfold upload_to_supabase, try_except, upload_url in *.
    rewrite Hex, Hopen, Hpost. reflexivity.
  - intros Hex. unfold upload_to_supabase, try_except. rewrite Hex.
    reflexivity.
  - intros e H Hex. unfold upload_to_supabase, try_except, upload_url in *.
    rewrite Hex in H. cbn [negb] in H.
    destruct (open_rb w file_path) as [[]|e1]; [|injection H as <-; auto].
    destruct (requests_post w _) as [[]|e2]; [discriminate|].
    injection H as <-. auto.
Qed.

Lemma upload_outcomes_witness :
  upload_to_supabase Sample.cfg (Sample.without_video (Sample.world_of [] 0))
    "/tmp/job/out.mp4" "job-1.mp4"
  = Raise (FileNotFoundError ("File not found: " +:+ "/tmp/job/out.mp4")).
Proof.
  apply (upload_outcomes Sample.cfg
           (Sample.without_video (Sample.world_of [] 0))
           "/tmp/job/out.mp4" "job-1.mp4").
  reflexivity.
Defined.
